(** * ExpenseTracker: the data-access layer of [SourceCode.py]

    A shallow embedding of class [DatabaseManager]: the two SQLite tables
    of one backing file, the SQL statements the methods issue, the methods
    themselves over a file system of backing files, and the properties the
    specification states about them.

    Modelling decisions, all of them visible in the definitions below:
    - a backing file is the pair of tables [expenses] and [categories]
      together with the two AUTOINCREMENT counters SQLite keeps for them;
      a table is the list of its rows in rowid order;
    - the [amount REAL] column holds IEEE doubles, as Python's [float] and
      SQLite's REAL are: amounts are the kernel's binary64 numbers
      ([PrimFloat.float]) and are added and compared by its operations.
      SQLite turns a NaN into NULL wherever it stores or
      returns one, so a NaN in an amount or in a sum stands for NULL
      (Python's [None]);
    - [SUM] is the running double sum of SQLite's aggregate ([sumStep] in
      [func.c], as in the releases before the compensated summation of
      3.43): the accumulator starts at [0.0] and the rows are added one
      after another in the order the table or the group is scanned, NULLs
      skipped;
    - TEXT values are [string]s, one [ascii] per character, compared the
      way SQLite's BINARY collation compares them ([String.compare]);
    - [ORDER BY] is a parameter of the queries: SQL fixes the order of the
      rows only up to rows with equal sort keys, so the queries take the
      engine's sorting routine as an argument. The theorems assume the
      contract [order_by_contract] and, where they speak of rows with
      equal keys, that the routine is stable ([order_by_stable]), as
      SQLite's merge sorter is;
    - the file system maps the name of a backing file to its content; a
      name bound to nothing stands for a file that is absent or has no
      schema yet (the two behave alike for every statement used here).
      Whether a file of a given name can be opened or created at all is
      the operating system's decision, the parameter [os_accepts] of the
      methods that connect to a file by a new name. *)

From Stdlib Require Import QArith ZArith Ascii String.
From Stdlib Require Import DecimalString DecimalZ Floats.
From stdpp Require Import gmap strings list sorting.

#[local] Open Scope string_scope.
#[local] Open Scope Z_scope.
(* Decimal literals such as [0.1] denote the nearest double. *)
#[local] Set Warnings "-inexact-float".
(* [++] is list concatenation throughout; texts are joined with [+:+]. *)
#[local] Disable Notation "_ ++ _" : string_scope.

(** ** Rows, tables and backing files *)

(** [CREATE TABLE expenses (id INTEGER PRIMARY KEY AUTOINCREMENT,
    description TEXT, amount REAL, category TEXT, date TEXT)]. *)
Record expense : Type := Expense {
  e_id : Z;
  e_description : string;
  e_amount : float;
  e_category : string;
  e_date : string
}.

(** [CREATE TABLE categories (id INTEGER PRIMARY KEY AUTOINCREMENT,
    name TEXT UNIQUE)]. *)
Record category : Type := Category {
  c_id : Z;
  c_name : string
}.

(** One SQLite file. [seq_expenses] and [seq_categories] are the entries of
    [sqlite_sequence]: the largest rowid each table has ever held. *)
Record database : Type := Database {
  expenses : list expense;
  categories : list category;
  seq_expenses : Z;
  seq_categories : Z
}.

(** What [create_table] leaves in a file that had no schema. *)
Definition empty_database : database :=
  {| expenses := []; categories := []; seq_expenses := 0; seq_categories := 0 |}.

#[global] Instance spec_float_eq_dec : EqDecision spec_float.
Proof. solve_decision. Defined.

(** Two doubles are the same when their sign, mantissa and exponent are. *)
#[global] Instance float_eq_dec : EqDecision float.
Proof.
  intros x y. destruct (decide (Prim2SF x = Prim2SF y)) as [H|H].
  - left. by apply Prim2SF_inj.
  - right. by intros ->.
Defined.

#[global] Instance expense_eq_dec : EqDecision expense.
Proof. solve_decision. Defined.

#[global] Instance category_eq_dec : EqDecision category.
Proof. solve_decision. Defined.

(** ** Python values used by the methods *)

(** Truth value of [email] in [if email] and [if not email]: [None] and the
    empty string are false. *)
Definition truthy_str (s : option string) : bool :=
  match s with
  | None => false
  | Some "" => false
  | Some _ => true
  end.

(** [str(n)] for a Python [int]. *)
Definition py_str (n : Z) : string := NilZero.string_of_int (Z.to_int n).

(** A Python [bool] read as an [int], which it is a subclass of:
    [True == 1] and [False == 0]. *)
Definition py_int_of_bool (b : bool) : Z := if b then 1 else 0.

(** A Python [int] can be bound to a statement parameter when it fits
    SQLite's INTEGER, a signed 64-bit number; for any other the binding
    raises [OverflowError]. *)
Definition fits_int64 (n : Z) : bool := (- 2 ^ 63 <=? n) && (n <? 2 ^ 63).

(** ** [sanitize_email] *)

(** The character class [[a-zA-Z0-9]] of the regular expression. *)
Definition is_alnum (c : ascii) : bool :=
  let n := nat_of_ascii c in
  ((97 <=? n) && (n <=? 122) || (65 <=? n) && (n <=? 90) || (48 <=? n) && (n <=? 57))%nat.

(** One step of [re.sub(r'[^a-zA-Z0-9]', '_', email)]: a character outside
    the class is one match and is replaced by an underscore. *)
Definition sanitize_char (c : ascii) : ascii :=
  if is_alnum c then c else "_"%char.

Fixpoint re_sub_non_alnum (s : string) : string :=
  match s with
  | EmptyString => EmptyString
  | String c s' => String (sanitize_char c) (re_sub_non_alnum s')
  end.

Definition sanitize_email (email : option string) : string :=
  match email with
  | Some e => if truthy_str email then re_sub_non_alnum e else ""
  | None => ""
  end.

(** ** The manager object and the file system *)

Record DatabaseManager : Type := Manager {
  is_local : bool;
  email : option string;
  local_db_file : string;
  email_db_file : option string;
  current_db_file : option string
}.

(** [create_table]: [sqlite3.connect(self.current_db_file)] followed by the
    two [CREATE TABLE IF NOT EXISTS]. A file that has its schema is left
    as it is. [connect(None)] raises, and so does the connection to a name
    the operating system refuses (one longer than the file system takes,
    for instance): the result is then [None]. *)
Definition create_table (os_accepts : string -> bool) (m : DatabaseManager)
    (fs : gmap string database) : option (gmap string database) :=
  match current_db_file m with
  | None => None
  | Some f =>
      if os_accepts f then
        match fs !! f with
        | Some _ => Some fs
        | None => Some (<[f := empty_database]> fs)
        end
      else None
  end.

(** The f-string [f"expenses_{self.sanitize_email(email)}.db"]. *)
Definition email_file_name (email : option string) : string :=
  "expenses_" +:+ sanitize_email email +:+ ".db".

(** [DatabaseManager(is_local, email)]. The result is [None] when the
    constructor raises: [create_table] does, and no object is built. *)
Definition __init__ (os_accepts : string -> bool) (is_local : bool)
    (email : option string) (fs : gmap string database)
  : option (DatabaseManager * gmap string database) :=
  let local_db_file := "expenses.db" in
  let email_db_file :=
    if truthy_str email then Some (email_file_name email) else None in
  let current_db_file :=
    if is_local then Some local_db_file else email_db_file in
  let self := Manager is_local email local_db_file email_db_file current_db_file in
  match create_table os_accepts self fs with
  | Some fs' => Some (self, fs')
  | None => None
  end.

(** [switch_database(is_local, email)]. The method has no [try]: it
    assigns the fields of the object, then calls [create_table], then
    returns [True]. The result is the object as the call leaves it,
    together with the file system and the returned value, or with [None]
    when [create_table] raised: the object is repointed by then. *)
Definition switch_database (os_accepts : string -> bool) (self : DatabaseManager)
    (fs : gmap string database) (is_local : bool) (email : option string)
  : DatabaseManager * option (gmap string database * bool) :=
  let self' :=
    if is_local then
      Manager is_local email (local_db_file self) (email_db_file self)
              (Some (local_db_file self))
    else
      Manager is_local email (local_db_file self) (Some (email_file_name email))
              (Some (email_file_name email)) in
  match create_table os_accepts self' fs with
  | Some fs' => (self', Some (fs', true))
  | None => (self', None)
  end.

(** ** The SQL engine: ORDER BY, SUM, GROUP BY, strftime *)

(** The sorting routine of the engine, at every row type. *)
Definition sorter : Type := forall A : Type, (A -> A -> bool) -> list A -> list A.

Definition leb_total {A : Type} (leb : A -> A -> bool) : Prop :=
  forall x y, leb x y = true \/ leb y x = true.

Definition leb_trans {A : Type} (leb : A -> A -> bool) : Prop :=
  forall x y z, leb x y = true -> leb y z = true -> leb x z = true.

(** [sorted_by leb l]: every row of [l] is [leb]-below every later row. *)
Definition sorted_by {A : Type} (leb : A -> A -> bool) (l : list A) : Prop :=
  StronglySorted (fun x y => leb x y = true) l.

(** What SQL promises of [ORDER BY]: the rows that went in come out, in
    an order that agrees with the sort key. Nothing is promised about the
    relative order of rows whose keys are equal. *)
Definition order_by_contract (ob : sorter) : Prop :=
  forall (A : Type) (leb : A -> A -> bool) (rows : list A),
    ob A leb rows ≡ₚ rows /\
    (leb_total leb -> leb_trans leb -> sorted_by leb (ob A leb rows)).

(** What SQLite's sorter does on top of that: it is a merge sort that
    takes from the earlier run on equal keys, so rows with equal keys come
    out in the order they went in. Said of every key [x]: the rows whose
    key equals that of [x] are the same list before and after. *)
Definition order_by_stable (ob : sorter) : Prop :=
  forall (A : Type) (leb : A -> A -> bool) (rows : list A) (x : A),
    leb_total leb -> leb_trans leb ->
    filter (fun y => leb x y && leb y x = true) (ob A leb rows)
    = filter (fun y => leb x y && leb y x = true) rows.

(** An engine that meets the contract and is stable: insertion sort over
    the rows in table order. *)
Fixpoint insert_by {A : Type} (leb : A -> A -> bool) (x : A) (l : list A) : list A :=
  match l with
  | [] => [x]
  | y :: l' => if leb x y then x :: l else y :: insert_by leb x l'
  end.

Definition stable_engine : sorter :=
  fun A leb rows => foldr (insert_by leb) [] rows.

(** [SUM(amount)] over rows, in the order given. One step of the
    aggregate skips a NULL and adds any other value to the accumulator
    [rSum], in double arithmetic. *)
Definition sum_step (acc x : float) : float :=
  if is_nan x then acc else (acc + x)%float.

(** The accumulator after the last row; it starts at [0.0]. *)
Definition sum_amounts (rows : list expense) : float :=
  foldl (fun acc e => sum_step acc (e_amount e)) 0%float rows.

(** The aggregate: NULL when it saw no value that is not NULL, and the
    accumulator otherwise, which is NULL again when it is a NaN. *)
Definition sql_sum (rows : list expense) : float :=
  if existsb (fun e => negb (is_nan (e_amount e))) rows
  then sum_amounts rows
  else nan.

(** [GROUP BY key]: one group per distinct key value, holding the rows
    with that key. *)
Definition group_by {K : Type} `{EqDecision K} (key : expense -> K)
    (rows : list expense) : list (K * list expense) :=
  (fun k => (k, filter (fun e => key e = k) rows)) <$> remove_dups (key <$> rows).

(** [SELECT key, SUM(amount) ... GROUP BY key]: the rows of a group are
    added in table order. The groups come in no order that matters: each
    query sorts them with its [ORDER BY]. *)
Definition group_sums {K : Type} `{EqDecision K} (key : expense -> K)
    (rows : list expense) : list (K * float) :=
  (fun g => (g.1, sql_sum g.2)) <$> group_by key rows.

(** Date texts. Only the form [YYYY-MM-DD], which the data model
    prescribes for the [date] column, is modelled: on a text of any other
    form [parse_ymd] gives [None], and the theorems that read dates are
    stated for tables whose dates are [valid_date]. *)
Definition is_digit (c : ascii) : bool :=
  let n := nat_of_ascii c in ((48 <=? n) && (n <=? 57))%nat.

Definition digit_value (c : ascii) : Z := Z.of_nat (nat_of_ascii c) - 48.

Definition digit_char (n : Z) : ascii := ascii_of_nat (48 + Z.to_nat n).

(** The engine's reading of a date text: four digits, a dash, two digits,
    a dash, two digits, with the month in 1..12 and the day in 1..31. *)
Definition parse_ymd (d : string) : option (Z * Z * Z) :=
  match d with
  | String ya (String yb (String yc (String yd (String sep1
      (String ma (String mb (String sep2 (String da (String db EmptyString))))))))) =>
      if forallb is_digit [ya; yb; yc; yd; ma; mb; da; db]
         && Ascii.eqb sep1 "-" && Ascii.eqb sep2 "-"
      then
        let Y := 1000 * digit_value ya + 100 * digit_value yb
                 + 10 * digit_value yc + digit_value yd in
        let M := 10 * digit_value ma + digit_value mb in
        let D := 10 * digit_value da + digit_value db in
        if (1 <=? M) && (M <=? 12) && (1 <=? D) && (D <=? 31)
        then Some (Y, M, D) else None
      else None
  | _ => None
  end.

(** ["%04d"] and ["%02d"] on the ranges the parsed fields lie in. *)
Definition fmt04 (n : Z) : string :=
  String (digit_char (n / 1000 mod 10)) (String (digit_char (n / 100 mod 10))
    (String (digit_char (n / 10 mod 10)) (String (digit_char (n mod 10)) EmptyString))).

Definition fmt02 (n : Z) : string :=
  String (digit_char (n / 10 mod 10)) (String (digit_char (n mod 10)) EmptyString).

(** [strftime('%Y', date)] and [strftime('%m', date)]; [None] is NULL. *)
Definition strftime_Y (d : string) : option string :=
  match parse_ymd d with
  | Some (Y, _, _) => Some (fmt04 Y)
  | None => None
  end.

Definition strftime_m (d : string) : option string :=
  match parse_ymd d with
  | Some (_, M, _) => Some (fmt02 M)
  | None => None
  end.

(** The data model's invariant on the [date] column: a calendar date in
    the exact form [YYYY-MM-DD], as [datetime.strptime] accepts it. *)
Definition is_leap (y : Z) : bool :=
  (y mod 4 =? 0) && (negb (y mod 100 =? 0) || (y mod 400 =? 0)).

Definition days_in_month (y m : Z) : Z :=
  if m =? 2 then (if is_leap y then 29 else 28)
  else if (m =? 4) || (m =? 6) || (m =? 9) || (m =? 11) then 30
  else 31.

Definition valid_date (d : string) : bool :=
  match parse_ymd d with
  | Some (Y, M, D) => (1 <=? Y) && (D <=? days_in_month Y M)
  | None => false
  end.

(** The calendar year and the month number of a date text. *)
Definition date_year (d : string) : option Z :=
  match parse_ymd d with
  | Some (Y, _, _) => Some Y
  | None => None
  end.

Definition date_month (d : string) : option Z :=
  match parse_ymd d with
  | Some (_, M, _) => Some M
  | None => None
  end.

(** [int(s)] for the decimal texts met here. *)
Definition py_int (s : string) : option Z :=
  Z.of_int <$> NilZero.int_of_string s.

(** The sort keys of the four [ORDER BY] clauses. Texts compare as the
    BINARY collation compares them; NULL sorts before every text and
    before every number; numbers compare by value. *)
Definition date_desc (x y : expense) : bool := String.leb (e_date y) (e_date x).

Definition name_asc (x y : string) : bool := String.leb x y.

Definition real_leb (a b : float) : bool :=
  is_nan a || (negb (is_nan b) && (a <=? b)%float).

Definition total_desc {K : Type} (x y : K * float) : bool := real_leb y.2 x.2.

Definition option_text_leb (x y : option string) : bool :=
  match x, y with
  | None, _ => true
  | Some _, None => false
  | Some a, Some b => String.leb a b
  end.

Definition month_asc (x y : option string * float) : bool := option_text_leb x.1 y.1.

(** ** The statements on one backing file *)

(** The rowid an AUTOINCREMENT table gives its next row: one more than
    the largest rowid the table holds or has ever held. *)
Definition max_rowid (ids : list Z) : Z := foldr Z.max 0 ids.

Definition next_rowid (seq : Z) (ids : list Z) : Z := Z.max seq (max_rowid ids) + 1.

(** [INSERT OR IGNORE INTO categories (name) VALUES (?)]: the UNIQUE
    constraint on [name] makes the statement insert no row for a name the
    table already holds. The rowid is drawn before the constraint is
    checked, so the counter advances either way. *)
Definition insert_or_ignore_category (name : string) (db : database) : database :=
  let id := next_rowid (seq_categories db) (c_id <$> categories db) in
  {| expenses := expenses db;
     categories :=
       if decide (name ∈ c_name <$> categories db) then categories db
       else categories db ++ [Category id name];
     seq_expenses := seq_expenses db;
     seq_categories := id |}.

(** [INSERT INTO expenses (description, amount, category, date)
    VALUES (?, ?, ?, ?)]. *)
Definition insert_expense (description : string) (amount : float) (cat date : string)
    (db : database) : database :=
  let id := next_rowid (seq_expenses db) (e_id <$> expenses db) in
  {| expenses := expenses db ++ [Expense id description amount cat date];
     categories := categories db;
     seq_expenses := id;
     seq_categories := seq_categories db |}.

(** [DELETE FROM expenses WHERE id = ?]. *)
Definition delete_where_id (expense_id : Z) (db : database) : database :=
  {| expenses := filter (fun e => e_id e <> expense_id) (expenses db);
     categories := categories db;
     seq_expenses := seq_expenses db;
     seq_categories := seq_categories db |}.

(** [UPDATE expenses SET description = ?, amount = ?, category = ?,
    date = ? WHERE id = ?]. *)
Definition update_where_id (expense_id : Z) (description : string) (amount : float)
    (cat date : string) (db : database) : database :=
  {| expenses :=
       (fun e => if decide (e_id e = expense_id)
                 then Expense (e_id e) description amount cat date
                 else e) <$> expenses db;
     categories := categories db;
     seq_expenses := seq_expenses db;
     seq_categories := seq_categories db |}.

(** ** The methods of [DatabaseManager] *)

(** [with sqlite3.connect(self.current_db_file) as conn]: the name and the
    content of the file the statements of a method run against. [None]
    when there is no such file or it has no tables, in which case the
    first statement raises. *)
Definition connect (self : DatabaseManager) (fs : gmap string database)
  : option (string * database) :=
  match current_db_file self with
  | Some f =>
      match fs !! f with
      | Some db => Some (f, db)
      | None => None
      end
  | None => None
  end.

(** [add_expense]: both INSERTs and the commit, then [return True]; the
    [except] branch returns [False] and the transaction is rolled back. *)
Definition add_expense (self : DatabaseManager) (fs : gmap string database)
    (description : string) (amount : float) (cat date : string)
  : gmap string database * bool :=
  match connect self fs with
  | Some (f, db) =>
      (<[f := insert_expense description amount cat date
                (insert_or_ignore_category cat db)]> fs, true)
  | None => (fs, false)
  end.

(** [delete_expense]. Binding an id that does not fit SQLite's INTEGER
    raises inside the [try]: nothing is executed and the [except] branch
    returns [False]. *)
Definition delete_expense (self : DatabaseManager) (fs : gmap string database)
    (expense_id : Z) : gmap string database * bool :=
  match connect self fs with
  | Some (f, db) =>
      if fits_int64 expense_id
      then (<[f := delete_where_id expense_id db]> fs, true)
      else (fs, false)
  | None => (fs, false)
  end.

(** [update_expense]: the category INSERT comes first, then the UPDATE.
    When binding the id raises, the INSERT has been executed but not
    committed: leaving the [with] block rolls it back, and the [except]
    branch returns [False]. *)
Definition update_expense (self : DatabaseManager) (fs : gmap string database)
    (expense_id : Z) (description : string) (amount : float) (cat date : string)
  : gmap string database * bool :=
  match connect self fs with
  | Some (f, db) =>
      if fits_int64 expense_id
      then (<[f := update_where_id expense_id description amount cat date
                     (insert_or_ignore_category cat db)]> fs, true)
      else (fs, false)
  | None => (fs, false)
  end.

(** [load_expenses]: [SELECT * FROM expenses ORDER BY date DESC]. The
    queries have no [except] branch: [None] is the exception. *)
Definition load_expenses (ob : sorter) (self : DatabaseManager)
    (fs : gmap string database) : option (list expense) :=
  match connect self fs with
  | Some (_, db) => Some (ob expense date_desc (expenses db))
  | None => None
  end.

(** [get_categories]: [SELECT name FROM categories ORDER BY name]. *)
Definition get_categories (ob : sorter) (self : DatabaseManager)
    (fs : gmap string database) : option (list string) :=
  match connect self fs with
  | Some (_, db) => Some (ob string name_asc (c_name <$> categories db))
  | None => None
  end.

(** [total if total is not None else 0]. *)
Definition py_or_zero (total : float) : float :=
  if is_nan total then 0%float else total.

(** [total_expenses]: [SELECT SUM(amount) FROM expenses], and
    [total if total is not None else 0]. *)
Definition total_expenses (self : DatabaseManager) (fs : gmap string database)
  : option float :=
  match connect self fs with
  | Some (_, db) => Some (py_or_zero (sql_sum (expenses db)))
  | None => None
  end.

(** [expenses_by_category]: [SELECT category, SUM(amount) as total FROM
    expenses GROUP BY category ORDER BY total DESC]. *)
Definition expenses_by_category (ob : sorter) (self : DatabaseManager)
    (fs : gmap string database) : option (list (string * float)) :=
  match connect self fs with
  | Some (_, db) =>
      Some (ob (string * float)%type total_desc (group_sums e_category (expenses db)))
  | None => None
  end.

(** [year = year or current_year]: [None] and [0] are false. *)
Definition year_or_current (year : option Z) (current_year : Z) : Z :=
  match year with
  | Some y => if y =? 0 then current_year else y
  | None => current_year
  end.

(** [expenses_by_month]: [SELECT strftime('%m', date) as month,
    SUM(amount) as total FROM expenses WHERE strftime('%Y', date) = ?
    GROUP BY month ORDER BY month] with the parameter [str(year)].
    [current_year] is [datetime.now().year]. *)
Definition expenses_by_month (ob : sorter) (self : DatabaseManager)
    (fs : gmap string database) (current_year : Z) (year : option Z)
  : option (list (option string * float)) :=
  let year := year_or_current year current_year in
  match connect self fs with
  | Some (_, db) =>
      let selected :=
        filter (fun e => strftime_Y (e_date e) = Some (py_str year)) (expenses db) in
      Some (ob (option string * float)%type month_asc
               (group_sums (fun e => strftime_m (e_date e)) selected))
  | None => None
  end.

(** ** Export and email backup *)

(** The JSON documents on disk, by file name. A document is the array of
    objects [{id, description, amount, category, date}], one per row. *)
Definition export_to_json (ob : sorter) (self : DatabaseManager)
    (fs : gmap string database) (docs : gmap string (list expense))
    (filename : string) (writable : bool)
  : gmap string (list expense) * bool :=
  match load_expenses ob self fs with
  | Some rows =>
      if writable then (<[filename := rows]> docs, true) else (docs, false)
  | None => (docs, false)
  end.

(** How the SMTP session of a backup ends: [login] and [sendmail] both
    succeed, [login] raises, or the connection fails. *)
Inductive smtp_result : Type :=
  | Sent
  | AuthenticationError
  | NetworkError.

Record mail : Type := Mail {
  mail_from : string;
  mail_to : string;
  mail_subject : string;
  attachment_name : string;
  attachment : list expense
}.

(** [email_backup(user_email, password, recipient_email)]. [timestamp] is
    [datetime.now().strftime("%Y%m%d_%H%M%S")]. The result holds the JSON
    documents left on disk, the message that went out, and the returned
    flag. Every statement is inside the one [try]; [os.remove] is its last
    statement before [return True]. *)
Definition email_backup (ob : sorter) (self : DatabaseManager)
    (fs : gmap string database) (docs : gmap string (list expense))
    (user_email : string) (recipient_email : option string)
    (timestamp : string) (writable : bool) (smtp : smtp_result)
  : gmap string (list expense) * option mail * bool :=
  let recipient :=
    match recipient_email with
    | Some r => if truthy_str recipient_email then r else user_email
    | None => user_email
    end in
  let backup_file := "expense_backup_" +:+ timestamp +:+ ".json" in
  let docs1 := (export_to_json ob self fs docs backup_file writable).1 in
  match docs1 !! backup_file with
  | None => (docs1, None, false)
  | Some content =>
      let msg := Mail user_email recipient
                      ("Expense Tracker Backup - " +:+ timestamp)
                      backup_file content in
      match smtp with
      | Sent => (delete backup_file docs1, Some msg, true)
      | AuthenticationError | NetworkError => (docs1, None, false)
      end
  end.

(** ** Sequences of operations under one selector *)

Inductive request : Type :=
  | Add (description : string) (amount : float) (cat date : string)
  | Update (expense_id : Z) (description : string) (amount : float) (cat date : string)
  | Delete (expense_id : Z).

Definition perform (self : DatabaseManager) (fs : gmap string database)
    (r : request) : gmap string database * bool :=
  match r with
  | Add d a c dt => add_expense self fs d a c dt
  | Update i d a c dt => update_expense self fs i d a c dt
  | Delete i => delete_expense self fs i
  end.

Definition perform_all (self : DatabaseManager) (rs : list request)
    (fs : gmap string database) : gmap string database :=
  foldl (fun fs r => (perform self fs r).1) fs rs.

(** The two kinds of storage location the application switches between. *)
Inductive selector : Type :=
  | Local
  | EmailKeyed (address : string).

Definition switch_to (os_accepts : string -> bool) (self : DatabaseManager)
    (fs : gmap string database) (sel : selector)
  : DatabaseManager * option (gmap string database * bool) :=
  match sel with
  | Local => switch_database os_accepts self fs true None
  | EmailKeyed a => switch_database os_accepts self fs false (Some a)
  end.

Definition selector_file (self : DatabaseManager) (sel : selector) : string :=
  match sel with
  | Local => local_db_file self
  | EmailKeyed a => email_file_name (Some a)
  end.

(** ** Vocabulary of the specification *)

(** The sum of a list of rationals, as mathematics writes it. *)
Definition Qsum (l : list Q) : Q := foldr Qplus 0%Q l.

(** The number a finite double stands for, exactly: its mantissa times a
    power of two, with its sign. (Infinities and NaN stand for no number;
    they are given 0 here and the function is not used on them.) *)
Definition float_value (x : float) : Q :=
  match Prim2SF x with
  | S754_finite s m e =>
      ((if s then -1 else 1) * inject_Z (Z.pos m) * Qpower 2 e)%Q
  | _ => 0%Q
  end.

(** A list of doubles added from left to right, starting at [0.0]. *)
Definition float_sum (l : list float) : float := foldl PrimFloat.add 0%float l.

(** No amount of the rows is NULL. *)
Definition no_null_amount (rows : list expense) : Prop :=
  Forall (fun e => is_nan (e_amount e) = false) rows.

(** The sixty-two characters of [[A-Za-z0-9]], written out. *)
Definition alnum_chars : list ascii :=
  list_ascii_of_string "ABCDEFGHIJKLMNOPQRSTUVWXYZabcdefghijklmnopqrstuvwxyz0123456789".

(** A listing breaks ties in insertion order when, of two rows with the
    same date, the one listed first is the one inserted first (the one
    with the smaller id). *)
Definition ties_in_insertion_order (out : list expense) : Prop :=
  forall (i j : nat) (x y : expense),
    out !! i = Some x -> out !! j = Some y -> (i < j)%nat ->
    e_date x = e_date y -> e_id x < e_id y.

(** The date of a row falls in calendar year [y], and in month [n] of it. *)
Definition in_year (y : Z) (e : expense) : Prop := date_year (e_date e) = Some y.

Definition in_month (y n : Z) (e : expense) : Prop :=
  date_year (e_date e) = Some y /\ date_month (e_date e) = Some n.

#[global] Instance in_year_dec (y : Z) (e : expense) : Decision (in_year y e).
Proof. unfold in_year. apply _. Defined.

#[global] Instance in_month_dec (y n : Z) (e : expense) : Decision (in_month y n e).
Proof. unfold in_month. apply _. Defined.

(** The month number a returned month key stands for: [int(month)], as
    the caller reads it. *)
Definition month_number (k : option string) : Z :=
  match k with
  | Some t => default 0 (py_int t)
  | None => 0
  end.

(** A date text read as the number [YYYYMMDD]: calendar order is the
    order of these numbers. *)
Definition date_ordinal (d : string) : option Z :=
  match parse_ymd d with
  | Some (Y, M, D) => Some (10000 * Y + 100 * M + D)
  | None => None
  end.

(** What is checked of the two formats on every number of their range:
    [int] reads the text back, a year of four digits is printed by
    ["%04d"] as [str] prints it, [str] of a year from 1 to 999 has fewer
    than four characters, and two-digit texts are ordered as their
    numbers are. *)
Definition fmt04_checks (Y : Z) : bool :=
  match py_int (fmt04 Y) with
  | Some n => (n =? Y) && ((Y <? 1000) || String.eqb (fmt04 Y) (py_str Y))
  | None => false
  end.

Definition fmt02_checks (M : Z) : bool :=
  match py_int (fmt02 M) with
  | Some n => n =? M
  | None => false
  end.

Definition short_year_checks (y : Z) : bool :=
  (y =? 0) || (String.length (py_str y) <? 4)%nat.

Definition fmt02_order_checks (z : Z) : bool :=
  let a := z / 100 in
  let b := z mod 100 in
  implb (String.leb (fmt02 a) (fmt02 b)) (a <=? b).

(** ** A worked example

    The application started on an empty disk, followed by the two
    additions of the specification's example. *)
Definition example_manager : DatabaseManager :=
  Manager true None "expenses.db" None (Some "expenses.db").

Definition example_db : database :=
  insert_expense "Bus" 2%float "Transport" "2024-01-06"
    (insert_or_ignore_category "Transport"
      (insert_expense "Coffee" 3.5%float "Food" "2024-01-05"
        (insert_or_ignore_category "Food" empty_database))).

Definition example_fs : gmap string database := {[ "expenses.db" := example_db ]}.

(** The example dataset with a third row, dated as the second. *)
Definition example_tie_fs : gmap string database :=
  (add_expense example_manager example_fs "Tea" 1%float "Food" "2024-01-06").1.

(** A dataset with one expense dated in the year 999. *)
Definition early_db : database :=
  insert_expense "Candles" 1%float "Household" "0999-05-01"
    (insert_or_ignore_category "Household" empty_database).

Definition early_fs : gmap string database := {[ "expenses.db" := early_db ]}.

(** A dataset with three amounts that are no binary fractions: a tenth
    under ["A"], a tenth under ["B"], four tenths under ["A"]. *)
Definition tenths_db : database :=
  insert_expense "Pen" 0.4%float "A" "2024-03-03"
    (insert_or_ignore_category "A"
      (insert_expense "Stamp" 0.1%float "B" "2024-03-02"
        (insert_or_ignore_category "B"
          (insert_expense "Gum" 0.1%float "A" "2024-03-01"
            (insert_or_ignore_category "A" empty_database))))).

Definition tenths_fs : gmap string database := {[ "expenses.db" := tenths_db ]}.

(** The same three amounts, inserted in another order: four tenths
    first. *)
Definition tenths_reordered_db : database :=
  insert_expense "Gum" 0.1%float "A" "2024-03-01"
    (insert_or_ignore_category "A"
      (insert_expense "Stamp" 0.1%float "B" "2024-03-02"
        (insert_or_ignore_category "B"
          (insert_expense "Pen" 0.4%float "A" "2024-03-03"
            (insert_or_ignore_category "A" empty_database))))).

Definition tenths_reordered_fs : gmap string database :=
  {[ "expenses.db" := tenths_reordered_db ]}.

(** An operating system for the examples. Its file system takes names of
    up to 255 characters, as the common ones do, and it accepts the name
    of a database when that of SQLite's rollback journal, the name
    followed by [-journal], is within that limit too. *)
Definition journal_fits_255 (name : string) : bool :=
  (String.length name + 8 <=? 255)%nat.


(** ** Sessions: requests and switches in any order *)

(** One step of the application after start-up: a request against the
    current dataset, or a switch to another one. When a switch raises,
    the caller ([ExpenseTrackerApp.switch_database]) catches the exception
    and goes on with the manager as the failed call left it. *)
Inductive action : Type :=
  | Request (r : request)
  | Switch (sel : selector).

Definition step (os_accepts : string -> bool)
    (st : DatabaseManager * gmap string database) (a : action)
  : DatabaseManager * gmap string database :=
  match a with
  | Request r => (st.1, (perform st.1 st.2 r).1)
  | Switch sel =>
      match switch_to os_accepts st.1 st.2 sel with
      | (self', Some (fs', _)) => (self', fs')
      | (self', None) => (self', st.2)
      end
  end.

Definition run (os_accepts : string -> bool) (acts : list action)
    (st : DatabaseManager * gmap string database)
  : DatabaseManager * gmap string database :=
  foldl (step os_accepts) st acts.

(** A switch of the session goes to a name the operating system accepts
    (the name of the local file is that of [self]: no switch changes it). *)
Definition switch_accepted (os_accepts : string -> bool) (self : DatabaseManager)
    (a : action) : Prop :=
  match a with
  | Switch sel => os_accepts (selector_file self sel) = true
  | Request _ => True
  end.

(** The id of a request, if it has one, can be bound to its statement. *)
Definition request_fits (r : request) : bool :=
  match r with
  | Add _ _ _ _ => true
  | Update expense_id _ _ _ _ => fits_int64 expense_id
  | Delete expense_id => fits_int64 expense_id
  end.

(** ** Integrity of a backing file

    What the schema and the methods keep true of a file: rowids of both
    tables ascend in table order (so they are distinct), none exceeds the
    table's AUTOINCREMENT counter, category names are distinct, and the
    category of every expense is one of the categories table. *)
Definition db_ok (db : database) : Prop :=
  StronglySorted Z.lt (e_id <$> expenses db)
  /\ Forall (fun i => i <= seq_expenses db) (e_id <$> expenses db)
  /\ StronglySorted Z.lt (c_id <$> categories db)
  /\ Forall (fun i => i <= seq_categories db) (c_id <$> categories db)
  /\ NoDup (c_name <$> categories db)
  /\ Forall (fun e => e_category e ∈ c_name <$> categories db) (expenses db).

Definition fs_ok (fs : gmap string database) : Prop :=
  forall f db, fs !! f = Some db -> db_ok db.

(** The two additions of the worked example, as a session on the manager
    constructed on an empty disk. *)
Definition example_session : list action :=
  [Request (Add "Coffee" 3.5%float "Food" "2024-01-05");
   Request (Add "Bus" 2%float "Transport" "2024-01-06")].

(** The two additions, then a switch to an email-keyed dataset, an
    addition there, and a switch back. *)
Definition example_switch_session : list action :=
  example_session
  ++ [Switch (EmailKeyed "me@x.com");
      Request (Add "Tea" 1%float "Drinks" "2024-02-01");
      Switch Local].


(** An id is retired in a file when the table's counter has passed it and
    no row carries it. Every statement keeps a retired id retired. *)
Definition retired (i : Z) (db : database) : Prop :=
  i <= seq_expenses db /\ i ∉ e_id <$> expenses db.


(** ** The month view of [ExpenseTrackerApp]

    The view is modelled by the values it computes for its rows, before
    they are formatted into the texts the widget shows ([f"{x:.2f}"] is
    not modelled). [None] stands for an exception raised while the view
    is filled. *)





(** ** The email check of the dialogs

    [re.match(r"[^@]+@[^@]+\.[^@]+", email)], used by
    [EmailBackupDialog.on_send] and [ExpenseTrackerApp.switch_database]:
    the pattern has to match a prefix of the text, not all of it. *)

(** The longest prefix without ['@'], and what follows it: what a maximal
    run of [[^@]] consumes. *)
Fixpoint span_not_at (s : string) : string * string :=
  match s with
  | EmptyString => (EmptyString, EmptyString)
  | String c s' =>
      if Ascii.eqb c "@" then (EmptyString, s)
      else (String c (span_not_at s').1, (span_not_at s').2)
  end.

(** Some ['.'] of the text has a character after it. *)
Fixpoint dot_then_more (t : string) : bool :=
  match t with
  | EmptyString => false
  | String c t' =>
      (Ascii.eqb c "." && negb (String.eqb t' EmptyString)) || dot_then_more t'
  end.

(** Whether the pattern matches at the start of [s]. The first [[^@]+]
    must stop at the first ['@'] and be non-empty; the run of [[^@]] after
    that ['@'] must hold one character, then somewhere a ['.'] followed by
    one more character. *)
Definition email_re_match (s : string) : bool :=
  match span_not_at s with
  | (String _ _, String _ after_at) =>
      match (span_not_at after_at).1 with
      | String _ t => dot_then_more t
      | EmptyString => false
      end
  | _ => false
  end.

(** The language of the pattern, as the pattern is read: texts
    [u@v.w] where [u], [v], [w] are non-empty and hold no ['@']. *)
Definition no_at (s : string) : Prop :=
  forall i, String.get i s <> Some "@"%char.

Definition in_email_pattern (s : string) : Prop :=
  exists u v w : string,
    s = u +:+ "@" +:+ v +:+ "." +:+ w
    /\ u <> "" /\ v <> "" /\ w <> ""
    /\ no_at u /\ no_at v /\ no_at w.

(** ** Export from the menu *)

(** [filename.endswith(suffix)]. *)
Definition py_endswith (s suffix : string) : bool :=
  (String.length suffix <=? String.length s)%nat
  && String.eqb (substring (String.length s - String.length suffix)
                           (String.length suffix) s) suffix.

(** [ExpenseTrackerApp.export_data]. [answer] is what the file-name dialog
    returns, [None] when it is cancelled. The result holds the documents
    on disk and the name that was exported to, if any. *)
Definition export_data (ob : sorter) (self : DatabaseManager)
    (fs : gmap string database) (docs : gmap string (list expense))
    (answer : option string) (writable : bool)
  : gmap string (list expense) * option string :=
  match answer with
  | Some filename =>
      if truthy_str answer then
        let filename :=
          if py_endswith filename ".json" then filename else filename +:+ ".json" in
        match export_to_json ob self fs docs filename writable with
        | (docs', true) => (docs', Some filename)
        | (docs', false) => (docs', None)
        end
      else (docs, None)
  | None => (docs, None)
  end.

(** * Properties *)

(** ** The sort keys are total preorders *)

Lemma string_leb_trans : leb_trans String.leb.
Proof.
  unfold leb_trans, String.leb.
  intros x; induction x as [|a x IH]; intros [|b y] [|c z]; simpl; try done.
  unfold Ascii.compare.
  destruct (N.compare_spec (N_of_ascii a) (N_of_ascii b)) as [Hab|Hab|Hab];
    destruct (N.compare_spec (N_of_ascii b) (N_of_ascii c)) as [Hbc|Hbc|Hbc];
    destruct (N.compare_spec (N_of_ascii a) (N_of_ascii c)) as [Hac|Hac|Hac];
    try done; try lia.
  apply IH.
Qed.

Lemma date_desc_total : leb_total date_desc.
Proof. intros x y. unfold date_desc. apply String.leb_total. Qed.

Lemma date_desc_trans : leb_trans date_desc.
Proof.
  intros x y z Hxy Hyz. unfold date_desc in *.
  exact (string_leb_trans _ _ _ Hyz Hxy).
Qed.

Lemma name_asc_total : leb_total name_asc.
Proof. intros x y. apply String.leb_total. Qed.

Lemma name_asc_trans : leb_trans name_asc.
Proof. exact string_leb_trans. Qed.

(** The comparison of two doubles that are no NaN goes by sign, exponent
    and mantissa; it is reflexive, total and transitive. *)
Lemma SFcompare_refl (f : spec_float) :
  f <> S754_nan -> SFcompare f f = Some Eq.
Proof.
  destruct f as [s|s| |s m e]; try done; simpl.
  - by destruct s.
  - rewrite Z.compare_refl.
    change (PosDef.Pos.compare_cont Eq m m) with (Pos.compare m m).
    rewrite Pos.compare_refl. by destruct s.
Qed.

Lemma is_nan_spec (x : float) : is_nan x = true <-> Prim2SF x = S754_nan.
Proof.
  unfold is_nan. rewrite FloatAxioms.eqb_spec. unfold SFeqb.
  destruct (decide (Prim2SF x = S754_nan)) as [H|H].
  - rewrite H. simpl. done.
  - rewrite SFcompare_refl by done. simpl. split; [done|]. intros; done.
Qed.

Lemma is_nan_false (x : float) : is_nan x = false <-> Prim2SF x <> S754_nan.
Proof. rewrite <- is_nan_spec. by destruct (is_nan x). Qed.

Ltac cmp_cases :=
  repeat match goal with
         | |- context [PosDef.Pos.compare_cont Eq ?a ?b] =>
             change (PosDef.Pos.compare_cont Eq a b) with (Pos.compare a b)
         | H : context [PosDef.Pos.compare_cont Eq ?a ?b] |- _ =>
             change (PosDef.Pos.compare_cont Eq a b) with (Pos.compare a b) in H
         end;
  repeat match goal with
         | |- context [Z.compare ?a ?b] => destruct (Z.compare_spec a b)
         | H : context [Z.compare ?a ?b] |- _ => destruct (Z.compare_spec a b)
         | |- context [Pos.compare ?a ?b] => destruct (Pos.compare_spec a b)
         | H : context [Pos.compare ?a ?b] |- _ => destruct (Pos.compare_spec a b)
         end.

Lemma SFleb_total (f g : spec_float) :
  f <> S754_nan -> g <> S754_nan -> SFleb f g = true \/ SFleb g f = true.
Proof.
  unfold SFleb.
  destruct f as [s|s| |s m e], g as [s'|s'| |s' m' e']; try done; intros _ _; simpl;
    try (destruct s, s'; simpl; auto; fail);
    try (destruct s; simpl; auto; fail);
    try (destruct s'; simpl; auto; fail).
  destruct s, s'; simpl; auto; cmp_cases; simpl; auto; lia.
Qed.

Lemma SFleb_trans (f g h : spec_float) :
  SFleb f g = true -> SFleb g h = true -> SFleb f h = true.
Proof.
  unfold SFleb.
  destruct f as [s|s| |s m e], g as [s'|s'| |s' m' e'], h as [s''|s''| |s'' m'' e''];
    simpl; try done;
    try (destruct s; simpl; try done; destruct s'; simpl; try done;
         destruct s''; simpl; try done; fail);
    try (destruct s; simpl; try done; destruct s'; simpl; try done; fail);
    try (destruct s; simpl; try done; destruct s''; simpl; try done; fail);
    try (destruct s'; simpl; try done; destruct s''; simpl; try done; fail);
    try (destruct s; simpl; try done; fail).
  all: destruct s, s', s''; simpl; try done; cmp_cases; simpl; try done; try lia.
Qed.

(** With NULL below every number, the order of REAL values is a total
    preorder. *)
Lemma real_leb_total : leb_total real_leb.
Proof.
  intros a b. unfold real_leb.
  destruct (is_nan a) eqn:Ha; [by left|].
  destruct (is_nan b) eqn:Hb; [by right|]. simpl.
  rewrite !leb_spec. apply SFleb_total; by apply is_nan_false.
Qed.

Lemma real_leb_trans : leb_trans real_leb.
Proof.
  intros a b c. unfold real_leb.
  destruct (is_nan a) eqn:Ha; [done|].
  destruct (is_nan b) eqn:Hb; [done|].
  destruct (is_nan c) eqn:Hc; [done|]. simpl.
  rewrite !leb_spec. apply SFleb_trans.
Qed.

Lemma total_desc_total (K : Type) : leb_total (@total_desc K).
Proof. intros x y. unfold total_desc. destruct (real_leb_total x.2 y.2); auto. Qed.

Lemma total_desc_trans (K : Type) : leb_trans (@total_desc K).
Proof.
  intros x y z Hxy Hyz. unfold total_desc in *.
  exact (real_leb_trans _ _ _ Hyz Hxy).
Qed.

Lemma option_text_leb_total : leb_total option_text_leb.
Proof.
  intros [a|] [b|]; simpl; auto. apply String.leb_total.
Qed.

Lemma option_text_leb_trans : leb_trans option_text_leb.
Proof.
  intros [a|] [b|] [c|]; simpl; try done. apply string_leb_trans.
Qed.

Lemma month_asc_total : leb_total month_asc.
Proof. intros x y. apply option_text_leb_total. Qed.

Lemma month_asc_trans : leb_trans month_asc.
Proof. intros x y z. apply option_text_leb_trans. Qed.

(** ** Insertion sort meets the ORDER BY contract and is stable *)

Section Engines.
Context {A : Type} (leb : A -> A -> bool).

Lemma insert_by_perm (x : A) (l : list A) : insert_by leb x l ≡ₚ x :: l.
Proof.
  induction l as [|y l IH]; simpl; [done|].
  destruct (leb x y); [done|].
  rewrite IH. apply Permutation_swap.
Qed.

Lemma insert_by_sorted (x : A) (l : list A) :
  leb_total leb -> leb_trans leb ->
  sorted_by leb l -> sorted_by leb (insert_by leb x l).
Proof.
  intros Htot Htr. unfold sorted_by.
  induction l as [|y l IH]; simpl; intros Hs.
  - by repeat constructor.
  - apply StronglySorted_inv in Hs as [Hs Hy].
    destruct (leb x y) eqn:Hxy.
    + constructor; [by constructor|].
      constructor; [done|].
      eapply Forall_impl; [exact Hy|]. intros z Hz. by eapply Htr.
    + constructor; [by apply IH|].
      assert (Hyx : leb y x = true).
      { destruct (Htot x y) as [H|H]; [congruence|done]. }
      rewrite insert_by_perm. by constructor.
Qed.

Lemma insertion_sort_perm (l : list A) : foldr (insert_by leb) [] l ≡ₚ l.
Proof.
  induction l as [|x l IH]; simpl; [done|].
  by rewrite insert_by_perm, IH.
Qed.

Lemma insertion_sort_sorted (l : list A) :
  leb_total leb -> leb_trans leb -> sorted_by leb (foldr (insert_by leb) [] l).
Proof.
  intros Htot Htr. induction l as [|x l IH]; simpl.
  - constructor.
  - by apply insert_by_sorted.
Qed.

(** Inserting [x] leaves the rows of every key in their order, [x] first
    among those of its own key. *)
Lemma insert_by_filter (k x : A) (l : list A) :
  leb_trans leb ->
  filter (fun y => leb k y && leb y k = true) (insert_by leb x l)
  = filter (fun y => leb k y && leb y k = true) (x :: l).
Proof.
  intros Htr. induction l as [|y l IH]; simpl; [done|].
  destruct (leb x y) eqn:Hxy; [done|].
  rewrite (filter_cons _ y), IH, !(filter_cons _ x), (filter_cons _ y).
  destruct (decide (leb k x && leb x k = true)) as [Hx|Hx];
    destruct (decide (leb k y && leb y k = true)) as [Hy|Hy]; try done.
  apply andb_prop in Hx as [Hkx Hxk]. apply andb_prop in Hy as [Hky Hyk].
  rewrite (Htr x k y Hxk Hky) in Hxy. done.
Qed.

Lemma insertion_sort_filter (k : A) (l : list A) :
  leb_trans leb ->
  filter (fun y => leb k y && leb y k = true) (foldr (insert_by leb) [] l)
  = filter (fun y => leb k y && leb y k = true) l.
Proof.
  intros Htr. induction l as [|x l IH]; simpl; [done|].
  rewrite insert_by_filter by done. by rewrite !(filter_cons _ x), IH.
Qed.

End Engines.

Lemma stable_engine_contract : order_by_contract stable_engine.
Proof.
  intros A leb rows. split.
  - apply insertion_sort_perm.
  - apply insertion_sort_sorted.
Qed.

Lemma stable_engine_stable : order_by_stable stable_engine.
Proof. intros A leb rows x _ Htr. by apply insertion_sort_filter. Qed.

(** ** Sums *)


(** On rows without NULL the accumulator is the amounts added from left
    to right. *)
Lemma sum_amounts_float_sum (rows : list expense) :
  no_null_amount rows -> sum_amounts rows = float_sum (e_amount <$> rows).
Proof.
  unfold sum_amounts, float_sum. generalize 0%float.
  induction rows as [|e rows IH]; intros acc Hall; [done|].
  apply Forall_cons in Hall as [He Hall].
  cbn [foldl fmap list_fmap]. unfold sum_step at 2. rewrite He. by apply IH.
Qed.

(** On any rows the accumulator is what is left of the amounts once the
    NULLs are dropped, added from left to right. *)
Lemma sum_amounts_skips_null (rows : list expense) :
  sum_amounts rows
  = float_sum (filter (fun a => is_nan a = false) (e_amount <$> rows)).
Proof.
  unfold sum_amounts, float_sum. generalize 0%float.
  induction rows as [|e rows IH]; intros acc; [done|].
  cbn [foldl fmap list_fmap]. unfold sum_step at 2.
  destruct (is_nan (e_amount e)) eqn:He.
  - rewrite filter_cons_False by (by rewrite He). apply IH.
  - rewrite filter_cons_True by done. cbn [foldl]. apply IH.
Qed.

Lemma sql_sum_no_null (rows : list expense) :
  rows <> [] -> no_null_amount rows ->
  sql_sum rows = float_sum (e_amount <$> rows).
Proof.
  intros Hne Hall. unfold sql_sum.
  destruct rows as [|e rows]; [done|].
  pose proof (Forall_inv Hall) as He. cbn [existsb]. rewrite He. cbn [negb orb].
  by apply sum_amounts_float_sum.
Qed.



(** While the aggregate has seen no value the accumulator is still [0.0]. *)
Lemma sum_amounts_all_null (rows : list expense) :
  existsb (fun e => negb (is_nan (e_amount e))) rows = false ->
  sum_amounts rows = 0%float.
Proof.
  unfold sum_amounts. generalize 0%float.
  induction rows as [|e rows IH]; intros acc; [done|].
  cbn [existsb foldl]. intros [He Hrows]%orb_false_elim.
  unfold sum_step at 2. apply negb_false_iff in He. rewrite He. by apply IH.
Qed.

(** [total if total is not None else 0] is a number. *)
Lemma py_or_zero_not_nan (x : float) : is_nan (py_or_zero x) = false.
Proof. unfold py_or_zero. by destruct (is_nan x) eqn:Hx. Qed.

(** What Python makes of the aggregate: the amounts that are not NULL,
    added from left to right, or zero when that sum is a NaN. *)
Lemma py_or_zero_sql_sum (rows : list expense) :
  py_or_zero (sql_sum rows)
  = py_or_zero (float_sum (filter (fun a => is_nan a = false) (e_amount <$> rows))).
Proof.
  unfold sql_sum. rewrite <- sum_amounts_skips_null.
  destruct (existsb _ rows) eqn:Hex; [done|].
  by rewrite sum_amounts_all_null.
Qed.

(** Grouping: the keys of the groups are the keys of the rows, each once,
    and each group carries the aggregate over the rows with its key, in
    table order. *)
Section Grouping.
Context {K : Type} `{EqDecision K} (key : expense -> K).

Lemma group_sums_keys (rows : list expense) :
  (group_sums key rows).*1 = remove_dups (key <$> rows).
Proof.
  unfold group_sums, group_by. rewrite <- !list_fmap_compose.
  rewrite <- (list_fmap_id (remove_dups _)) at 2. by apply list_fmap_ext.
Qed.

Lemma group_sums_lookup (rows : list expense) (k : K) (s : float) :
  (k, s) ∈ group_sums key rows ->
  s = sql_sum (filter (fun r => key r = k) rows)
  /\ exists e, e ∈ rows /\ key e = k.
Proof.
  unfold group_sums, group_by. rewrite <- list_fmap_compose.
  intros (k' & [= -> ->] & Hk')%list_elem_of_fmap. simpl. split; [done|].
  apply elem_of_remove_dups, list_elem_of_fmap in Hk'.
  destruct Hk' as (e & -> & He). by exists e.
Qed.

End Grouping.

(** ** The statements on one file *)

(** The ids that can be bound: those of the signed 64-bit range. *)
Lemma fits_int64_true (n : Z) : fits_int64 n = true <-> - 2 ^ 63 <= n < 2 ^ 63.
Proof.
  unfold fits_int64. rewrite andb_true_iff, Z.leb_le, Z.ltb_lt. done.
Qed.

Lemma fits_int64_false (n : Z) :
  fits_int64 n = false <-> n < - 2 ^ 63 \/ 2 ^ 63 <= n.
Proof.
  unfold fits_int64. rewrite andb_false_iff, Z.leb_gt, Z.ltb_ge. done.
Qed.

Lemma connect_Some (self : DatabaseManager) (fs : gmap string database)
    (f : string) (db : database) :
  current_db_file self = Some f -> fs !! f = Some db ->
  connect self fs = Some (f, db).
Proof. intros Hf Hdb. unfold connect. by rewrite Hf, Hdb. Qed.

Lemma connect_inv (self : DatabaseManager) (fs : gmap string database)
    (f : string) (db : database) :
  connect self fs = Some (f, db) ->
  current_db_file self = Some f /\ fs !! f = Some db.
Proof.
  unfold connect. destruct (current_db_file self) as [g|]; [|done].
  destruct (fs !! g) as [db0|] eqn:Hg; [|done]. by intros [= <- <-].
Qed.

Lemma connect_insert (self : DatabaseManager) (fs : gmap string database)
    (f : string) (db : database) :
  current_db_file self = Some f ->
  connect self (<[f := db]> fs) = Some (f, db).
Proof. intros Hf. apply connect_Some; [done|]. apply lookup_insert_eq. Qed.

Lemma max_rowid_ge (ids : list Z) (i : Z) : i ∈ ids -> i <= max_rowid ids.
Proof.
  induction ids as [|j ids IH]; [by intros ?%elem_of_nil|].
  intros [->|Hin]%elem_of_cons; simpl; [lia|]. specialize (IH Hin). lia.
Qed.

Lemma next_rowid_fresh (seq : Z) (ids : list Z) (i : Z) :
  i ∈ ids -> i < next_rowid seq ids.
Proof. intros Hin%max_rowid_ge. unfold next_rowid. lia. Qed.

Lemma next_rowid_above_seq (seq : Z) (ids : list Z) : seq < next_rowid seq ids.
Proof. unfold next_rowid. lia. Qed.

Lemma insert_or_ignore_expenses (name : string) (db : database) :
  expenses (insert_or_ignore_category name db) = expenses db
  /\ seq_expenses (insert_or_ignore_category name db) = seq_expenses db.
Proof. done. Qed.

Lemma insert_or_ignore_names (name : string) (db : database) :
  (name ∈ c_name <$> categories db ->
     categories (insert_or_ignore_category name db) = categories db)
  /\ (name ∉ c_name <$> categories db ->
     categories (insert_or_ignore_category name db)
     = (categories db
        ++ [Category (next_rowid (seq_categories db) (c_id <$> categories db)) name])%list)
  /\ name ∈ c_name <$> categories (insert_or_ignore_category name db).
Proof.
  unfold insert_or_ignore_category. cbn [categories].
  case_decide as Hin; split_and!; try done.
  rewrite fmap_app. apply elem_of_app. right. simpl. apply list_elem_of_here.
Qed.

Lemma update_where_absent_id (expense_id : Z) (description : string) (amount : float)
    (cat date : string) (db : database) :
  expense_id ∉ e_id <$> expenses db ->
  expenses (update_where_id expense_id description amount cat date db) = expenses db.
Proof.
  intros Habs. simpl.
  rewrite <- (list_fmap_id (expenses db)) at 2.
  apply list_fmap_ext. intros i e He.
  rewrite decide_False; [done|].
  intros Heq. apply Habs, list_elem_of_fmap. exists e. split; [done|].
  by eapply list_elem_of_lookup_2.
Qed.

Lemma delete_where_absent_id (expense_id : Z) (db : database) :
  expense_id ∉ e_id <$> expenses db -> delete_where_id expense_id db = db.
Proof.
  intros Habs. unfold delete_where_id. destruct db as [es cs se sc]; simpl in *.
  f_equal. induction es as [|e es IH]; [done|].
  rewrite fmap_cons in Habs. apply not_elem_of_cons in Habs as [Hne Habs].
  rewrite filter_cons_True by done. by rewrite IH.
Qed.

Lemma delete_where_removes (expense_id : Z) (db : database) :
  expense_id ∉ e_id <$> expenses (delete_where_id expense_id db).
Proof.
  simpl. intros (e & -> & He)%list_elem_of_fmap.
  by apply list_elem_of_filter in He as [Hne _].
Qed.

(** ** C6: the total *)

(** C6, as amended. For every dataset, [total_expenses] returns a number,
    never [None] and never a NaN. On a dataset without rows it returns
    zero. In general it returns the amounts that are not NULL, added one
    after another in table order, in double arithmetic, starting from
    [0.0]; when that sum is a NaN, which SQLite reports as NULL, it
    returns zero. So on a dataset whose amounts are all numbers it returns
    the amounts added one after another, unless that sum is a NaN. *)
Theorem total_expenses_is_running_sum (self : DatabaseManager)
    (fs : gmap string database) (f : string) (db : database) :
  current_db_file self = Some f -> fs !! f = Some db ->
  exists t : float,
    total_expenses self fs = Some t
    /\ is_nan t = false
    /\ (expenses db = [] -> t = 0%float)
    /\ (let s := float_sum (filter (fun a => is_nan a = false)
                              (e_amount <$> expenses db)) in
        t = if is_nan s then 0%float else s)
    /\ (no_null_amount (expenses db) ->
        is_nan (float_sum (e_amount <$> expenses db)) = false ->
        t = float_sum (e_amount <$> expenses db)).
Proof.
  intros Hf Hdb. unfold total_expenses. rewrite (connect_Some _ _ _ _ Hf Hdb).
  eexists. split_and!; [reflexivity|apply py_or_zero_not_nan| | |].
  - by intros ->.
  - cbv zeta. by rewrite py_or_zero_sql_sum.
  - intros Hall Hsum. destruct (expenses db) as [|e rows] eqn:Hrows; [done|].
    rewrite sql_sum_no_null by done. unfold py_or_zero. by rewrite Hsum.
Qed.

Lemma total_expenses_is_running_sum_witness :
  exists t : float,
    total_expenses example_manager example_fs = Some t
    /\ is_nan t = false
    /\ (expenses example_db = [] -> t = 0%float)
    /\ (let s := float_sum (filter (fun a => is_nan a = false)
                              (e_amount <$> expenses example_db)) in
        t = if is_nan s then 0%float else s)
    /\ (no_null_amount (expenses example_db) ->
        is_nan (float_sum (e_amount <$> expenses example_db)) = false ->
        t = float_sum (e_amount <$> expenses example_db)).
Proof.
  apply (total_expenses_is_running_sum example_manager example_fs
           "expenses.db" example_db); reflexivity.
Defined.

(** C6, as stated, fails: the sum is rounded at every step, so it is
    not the sum of the amounts and depends on the order of the rows. On
    the dataset with the amounts 0.1, 0.1 and 0.4 the method returns
    0.6000000000000001, which is not the sum of the three stored values;
    on the dataset that holds the same three amounts with 0.4 first, it
    returns 0.6. *)
Lemma total_expenses_is_not_the_exact_sum :
  match total_expenses example_manager tenths_fs,
        total_expenses example_manager tenths_reordered_fs with
  | Some t, Some t' =>
      t = 0.6000000000000001%float
      /\ ~ (float_value t == Qsum (float_value <$> (e_amount <$> expenses tenths_db)))%Q
      /\ (e_amount <$> expenses tenths_reordered_db)
         ≡ₚ (e_amount <$> expenses tenths_db)
      /\ t' = 0.6%float
      /\ t' <> t
  | _, _ => False
  end.
Proof.
  vm_compute total_expenses.
  split_and!; [reflexivity|vm_compute; discriminate| |reflexivity|].
  - vm_compute.
    exact (Permutation_cons_append [0.1%float; 0.1%float] 0.4%float).
  - intros H. apply (f_equal (fun x => PrimFloat.eqb x 0.6%float)) in H.
    vm_compute in H. discriminate.
Qed.

(** ** C3: update and delete of an id that is not there *)

Lemma load_expenses_contract (ob : sorter) (self : DatabaseManager)
    (fs : gmap string database) (f : string) (db : database) :
  order_by_contract ob ->
  current_db_file self = Some f -> fs !! f = Some db ->
  exists out, load_expenses ob self fs = Some out
    /\ out ≡ₚ expenses db /\ sorted_by date_desc out.
Proof.
  intros Hob Hf Hdb. unfold load_expenses. rewrite (connect_Some _ _ _ _ Hf Hdb).
  destruct (Hob expense date_desc (expenses db)) as [Hperm Hsorted].
  eexists. split_and!; [done|done|].
  apply Hsorted; [apply date_desc_total|apply date_desc_trans].
Qed.

(** C3, as amended. For every dataset and every id that no row of it
    has: when the id fits SQLite's 64-bit INTEGER, [update_expense] and
    [delete_expense] take their success path (no exception reaches the
    handler) and return [True], and the expense rows are what they were;
    when it does not fit, binding it raises, the handler returns [False],
    and nothing at all has changed. And after [delete_expense] of any id
    that fits, [load_expenses] lists no row with that id. *)
Theorem update_delete_absent_id (ob : sorter) (self : DatabaseManager)
    (fs : gmap string database) (f : string) (db : database) (expense_id : Z)
    (description : string) (amount : float) (cat date : string) :
  order_by_contract ob ->
  current_db_file self = Some f -> fs !! f = Some db ->
  expense_id ∉ e_id <$> expenses db ->
  (- 2 ^ 63 <= expense_id < 2 ^ 63 ->
     (exists fs' db',
         update_expense self fs expense_id description amount cat date = (fs', true)
         /\ fs' !! f = Some db' /\ expenses db' = expenses db)
     /\ delete_expense self fs expense_id = (fs, true))
  /\ (expense_id < - 2 ^ 63 \/ 2 ^ 63 <= expense_id ->
       update_expense self fs expense_id description amount cat date = (fs, false)
       /\ delete_expense self fs expense_id = (fs, false))
  /\ (forall any_id : Z, - 2 ^ 63 <= any_id < 2 ^ 63 ->
        exists out,
          load_expenses ob self (delete_expense self fs any_id).1 = Some out
          /\ any_id ∉ e_id <$> out).
Proof.
  intros Hob Hf Hdb Habs. split_and!.
  - intros Hfit%fits_int64_true. split.
    + unfold update_expense. rewrite (connect_Some _ _ _ _ Hf Hdb), Hfit.
      eexists _, _. split_and!; [done|apply lookup_insert_eq|].
      by rewrite update_where_absent_id.
    + unfold delete_expense. rewrite (connect_Some _ _ _ _ Hf Hdb), Hfit.
      rewrite delete_where_absent_id by done. by rewrite insert_id.
  - intros Hfit%fits_int64_false. unfold update_expense, delete_expense.
    by rewrite (connect_Some _ _ _ _ Hf Hdb), Hfit.
  - intros any_id Hfit%fits_int64_true. unfold delete_expense.
    rewrite (connect_Some _ _ _ _ Hf Hdb), Hfit. cbn [fst].
    destruct (load_expenses_contract ob self
                (<[f := delete_where_id any_id db]> fs) f
                (delete_where_id any_id db) Hob Hf (lookup_insert_eq _ _ _))
      as (out & Hout & Hperm & _).
    exists out. split; [done|]. rewrite Hperm. apply delete_where_removes.
Qed.

Lemma update_delete_absent_id_witness :
  (- 2 ^ 63 <= 7 < 2 ^ 63 ->
     (exists fs' db',
         update_expense example_manager example_fs 7 "Tea" 1%float "Food" "2024-02-01"
           = (fs', true)
         /\ fs' !! "expenses.db" = Some db' /\ expenses db' = expenses example_db)
     /\ delete_expense example_manager example_fs 7 = (example_fs, true))
  /\ (7 < - 2 ^ 63 \/ 2 ^ 63 <= 7 ->
       update_expense example_manager example_fs 7 "Tea" 1%float "Food" "2024-02-01"
         = (example_fs, false)
       /\ delete_expense example_manager example_fs 7 = (example_fs, false))
  /\ (forall any_id : Z, - 2 ^ 63 <= any_id < 2 ^ 63 ->
        exists out,
          load_expenses stable_engine example_manager
            (delete_expense example_manager example_fs any_id).1 = Some out
          /\ any_id ∉ e_id <$> out).
Proof.
  apply (update_delete_absent_id stable_engine example_manager example_fs
           "expenses.db" example_db 7 "Tea" 1%float "Food" "2024-02-01").
  - exact stable_engine_contract.
  - reflexivity.
  - reflexivity.
  - vm_compute. intros H. repeat (inversion H as [|? ? ? H']; clear H; rename H' into H).
Defined.

(** C3, as stated, fails: no row of the example dataset has the id
    [2^63], and for that id both methods return [False]. *)
Lemma absent_id_outside_int64_reports_failure :
  (2 ^ 63 ∉ e_id <$> expenses example_db)
  /\ (delete_expense example_manager example_fs (2 ^ 63)).2 = false
  /\ (update_expense example_manager example_fs (2 ^ 63)
        "Tea" 1%float "Food" "2024-02-01").2 = false.
Proof.
  split_and!; [|reflexivity|reflexivity].
  vm_compute. intros H. repeat (inversion H as [|? ? ? H']; clear H; rename H' into H).
Qed.

(** ** C10: the category of an update that matches no row *)

Lemma get_categories_contract (ob : sorter) (self : DatabaseManager)
    (fs : gmap string database) (f : string) (db : database) :
  order_by_contract ob ->
  current_db_file self = Some f -> fs !! f = Some db ->
  exists names, get_categories ob self fs = Some names
    /\ names ≡ₚ c_name <$> categories db /\ sorted_by name_asc names.
Proof.
  intros Hob Hf Hdb. unfold get_categories. rewrite (connect_Some _ _ _ _ Hf Hdb).
  destruct (Hob string name_asc (c_name <$> categories db)) as [Hperm Hsorted].
  eexists. split_and!; [done|done|].
  apply Hsorted; [apply name_asc_total|apply name_asc_trans].
Qed.

(** C10, as amended. For every dataset, every id that no row of it has
    and that fits SQLite's 64-bit INTEGER, and every category name the
    categories table does not hold, [update_expense] with that id and name
    still inserts the name: [get_categories] lists it afterwards (it lists
    the old names and the new one), although the expense rows are what
    they were. *)
Theorem update_absent_id_inserts_category (ob : sorter) (self : DatabaseManager)
    (fs : gmap string database) (f : string) (db : database) (expense_id : Z)
    (description : string) (amount : float) (cat date : string) :
  order_by_contract ob ->
  current_db_file self = Some f -> fs !! f = Some db ->
  expense_id ∉ e_id <$> expenses db ->
  - 2 ^ 63 <= expense_id < 2 ^ 63 ->
  cat ∉ c_name <$> categories db ->
  exists fs' db' before after,
    update_expense self fs expense_id description amount cat date = (fs', true)
    /\ fs' !! f = Some db'
    /\ expenses db' = expenses db
    /\ get_categories ob self fs = Some before
    /\ (cat ∉ before)
    /\ get_categories ob self fs' = Some after
    /\ cat ∈ after
    /\ after ≡ₚ (cat :: before).
Proof.
  intros Hob Hf Hdb Habs Hfit%fits_int64_true Hnew.
  destruct (get_categories_contract ob self fs f db Hob Hf Hdb)
    as (before & Hbefore & Hpb & _).
  unfold update_expense. rewrite (connect_Some _ _ _ _ Hf Hdb), Hfit.
  set (db' := update_where_id expense_id description amount cat date
                (insert_or_ignore_category cat db)).
  destruct (get_categories_contract ob self (<[f := db']> fs) f db' Hob Hf
              (lookup_insert_eq _ _ _)) as (after & Hafter & Hpa & _).
  assert (Hcats : c_name <$> categories db' = (c_name <$> categories db) ++ [cat]).
  { subst db'. cbn [categories update_where_id].
    destruct (insert_or_ignore_names cat db) as (_ & Hins & _).
    by rewrite (Hins Hnew), fmap_app. }
  exists (<[f := db']> fs), db', before, after.
  split_and!; try done.
  - apply lookup_insert_eq.
  - subst db'. by rewrite update_where_absent_id.
  - by rewrite Hpb.
  - rewrite Hpa, Hcats. apply elem_of_app. right. apply list_elem_of_here.
  - rewrite Hpa, Hcats, Hpb. by rewrite Permutation_app_comm.
Qed.

Lemma update_absent_id_inserts_category_witness :
  exists fs' db' before after,
    update_expense example_manager example_fs 7 "Tea" 1%float "Drinks" "2024-02-01"
      = (fs', true)
    /\ fs' !! "expenses.db" = Some db'
    /\ expenses db' = expenses example_db
    /\ get_categories stable_engine example_manager example_fs = Some before
    /\ ("Drinks" ∉ before)
    /\ get_categories stable_engine example_manager fs' = Some after
    /\ "Drinks" ∈ after
    /\ after ≡ₚ ("Drinks" :: before).
Proof.
  apply (update_absent_id_inserts_category stable_engine example_manager example_fs
           "expenses.db" example_db 7 "Tea" 1%float "Drinks" "2024-02-01").
  - exact stable_engine_contract.
  - reflexivity.
  - reflexivity.
  - vm_compute. intros H. repeat (inversion H as [|? ? ? H']; clear H; rename H' into H).
  - split; [discriminate|reflexivity].
  - vm_compute. intros H. repeat (inversion H as [|? ? ? H']; clear H; rename H' into H).
Defined.

(** C10, as stated, fails: no row of the example dataset has the id
    [2^63] and its categories table does not hold ["Drinks"]; the update
    with that id and name returns [False], and [get_categories] afterwards
    lists what it listed before, without ["Drinks"]. *)
Lemma update_outside_int64_inserts_no_category :
  (2 ^ 63 ∉ e_id <$> expenses example_db)
  /\ ("Drinks" ∉ c_name <$> categories example_db)
  /\ (let '(fs', returned) :=
        update_expense example_manager example_fs (2 ^ 63)
          "Tea" 1%float "Drinks" "2024-02-01" in
      returned = false
      /\ get_categories stable_engine example_manager fs' = Some ["Food"; "Transport"]
      /\ get_categories stable_engine example_manager example_fs
         = Some ["Food"; "Transport"]).
Proof.
  split_and!.
  - vm_compute. intros H. repeat (inversion H as [|? ? ? H']; clear H; rename H' into H).
  - vm_compute. intros H. repeat (inversion H as [|? ? ? H']; clear H; rename H' into H).
  - vm_compute. split_and!; reflexivity.
Qed.

(** ** C5: what [add_expense] inserts and what it returns *)

(** C5, as amended. For every input, [add_expense] on a dataset inserts
    the category if the categories table does not hold it, appends the
    expense row under a fresh id, larger than every id of the table and
    than every id the table has ever given out, and returns [True]: the
    success flag, not the id. *)
Theorem add_expense_inserts_and_returns_flag (self : DatabaseManager)
    (fs : gmap string database) (f : string) (db : database)
    (description : string) (amount : float) (cat date : string) :
  current_db_file self = Some f -> fs !! f = Some db ->
  exists db' new_id,
    add_expense self fs description amount cat date = (<[f := db']> fs, true)
    /\ expenses db' = (expenses db ++ [Expense new_id description amount cat date])%list
    /\ (forall e, e ∈ expenses db -> e_id e < new_id)
    /\ seq_expenses db < new_id
    /\ seq_expenses db' = new_id
    /\ cat ∈ c_name <$> categories db'
    /\ (cat ∈ c_name <$> categories db -> categories db' = categories db)
    /\ (cat ∉ c_name <$> categories db ->
          exists cid, categories db' = (categories db ++ [Category cid cat])%list).
Proof.
  intros Hf Hdb. unfold add_expense. rewrite (connect_Some _ _ _ _ Hf Hdb).
  destruct (insert_or_ignore_expenses cat db) as [Hexp Hseq].
  destruct (insert_or_ignore_names cat db) as (Hold & Hnew & Hin).
  eexists _, _. split_and!; [reflexivity| | | | | | |].
  - cbn [expenses insert_expense]. by rewrite Hexp, Hseq.
  - intros e He. apply next_rowid_fresh, list_elem_of_fmap. by exists e.
  - apply next_rowid_above_seq.
  - cbn [seq_expenses insert_expense]. by rewrite Hexp, Hseq.
  - done.
  - intros H. cbn [categories insert_expense]. by rewrite (Hold H).
  - intros H. eexists. cbn [categories insert_expense]. by rewrite (Hnew H).
Qed.

Lemma add_expense_inserts_and_returns_flag_witness :
  exists db' new_id,
    add_expense example_manager example_fs "Tea" 1%float "Drinks" "2024-02-01"
      = (<["expenses.db" := db']> example_fs, true)
    /\ expenses db'
       = (expenses example_db ++ [Expense new_id "Tea" 1%float "Drinks" "2024-02-01"])%list
    /\ (forall e, e ∈ expenses example_db -> e_id e < new_id)
    /\ seq_expenses example_db < new_id
    /\ seq_expenses db' = new_id
    /\ "Drinks" ∈ c_name <$> categories db'
    /\ ("Drinks" ∈ c_name <$> categories example_db ->
          categories db' = categories example_db)
    /\ ("Drinks" ∉ c_name <$> categories example_db ->
          exists cid, categories db' = (categories example_db ++ [Category cid "Drinks"])%list).
Proof.
  apply (add_expense_inserts_and_returns_flag example_manager example_fs
           "expenses.db" example_db "Tea" 1%float "Drinks" "2024-02-01"); reflexivity.
Defined.

(** C5, as stated, fails: on the example dataset, which holds two rows,
    the third row gets id 3 while [add_expense] returns [True], which as a
    number is 1. *)
Lemma add_expense_does_not_return_id :
  let '(fs', returned) :=
    add_expense example_manager example_fs "Tea" 1%float "Drinks" "2024-02-01" in
  returned = true
  /\ (e_id <$> (fs' !! "expenses.db" ≫= fun db' => last (expenses db'))) = Some 3
  /\ py_int_of_bool returned <> 3.
Proof. vm_compute. split_and!; [reflexivity|reflexivity|discriminate]. Qed.

(** ** C4: the order of the listing *)

Lemma sorted_by_lookup {A : Type} (leb : A -> A -> bool) (l : list A) :
  sorted_by leb l ->
  forall (i j : nat) (x y : A),
    l !! i = Some x -> l !! j = Some y -> (i < j)%nat -> leb x y = true.
Proof.
  induction 1 as [|a l Hs IH Hall]; intros i j x y Hi Hj Hij.
  - by rewrite lookup_nil in Hi.
  - destruct i as [|i], j as [|j]; try lia; simpl in Hi, Hj.
    + injection Hi as ->. rewrite Forall_forall in Hall.
      apply Hall. by eapply list_elem_of_lookup_2.
    + eapply IH; [exact Hi|exact Hj|lia].
Qed.

(** Digit characters compare as their values do. *)
Lemma is_digit_value (c : ascii) :
  is_digit c = true -> 0 <= digit_value c <= 9.
Proof.
  unfold is_digit, digit_value. cbv zeta.
  intros [H1 H2]%andb_prop. apply Nat.leb_le in H1, H2. lia.
Qed.

Lemma digit_compare (c c' : ascii) :
  Ascii.compare c c' = (digit_value c ?= digit_value c').
Proof.
  unfold Ascii.compare, digit_value, nat_of_ascii.
  rewrite !N_nat_Z, <- N2Z.inj_compare.
  destruct (Z.compare_spec (Z.of_N (N_of_ascii c)) (Z.of_N (N_of_ascii c')));
    destruct (Z.compare_spec (Z.of_N (N_of_ascii c) - 48) (Z.of_N (N_of_ascii c') - 48));
    try reflexivity; lia.
Qed.

Lemma parse_ymd_inv (d : string) (Y M D : Z) :
  parse_ymd d = Some (Y, M, D) ->
  exists ya yb yc yd ma mb da db : ascii,
    d = String ya (String yb (String yc (String yd (String "-"
          (String ma (String mb (String "-" (String da (String db EmptyString)))))))))
    /\ Forall (fun c => is_digit c = true) [ya; yb; yc; yd; ma; mb; da; db]
    /\ Y = 1000 * digit_value ya + 100 * digit_value yb
            + 10 * digit_value yc + digit_value yd
    /\ M = 10 * digit_value ma + digit_value mb
    /\ D = 10 * digit_value da + digit_value db
    /\ 1 <= M <= 12 /\ 1 <= D <= 31.
Proof.
  destruct d as [|ya [|yb [|yc [|yd [|s1 [|ma [|mb [|s2 [|da [|db [|? ?]]]]]]]]]]];
    try done.
  unfold parse_ymd.
  destruct (forallb is_digit [ya; yb; yc; yd; ma; mb; da; db]) eqn:Hdig; [|done].
  destruct (Ascii.eqb_spec s1 "-") as [->|]; [|done].
  destruct (Ascii.eqb_spec s2 "-") as [->|]; [|done].
  cbn [andb]. cbv zeta.
  destruct (_ && _ && _ && _) eqn:Hrange; [|done].
  intros [= <- <- <-].
  exists ya, yb, yc, yd, ma, mb, da, db.
  split_and!; try done.
  - apply Forall_forall. intros c Hc.
    rewrite forallb_forall in Hdig. apply Hdig. by apply list_elem_of_In.
  - apply andb_prop in Hrange as [[[H _]%andb_prop _]%andb_prop _]. lia.
  - apply andb_prop in Hrange as [[[_ H]%andb_prop _]%andb_prop _]. lia.
  - apply andb_prop in Hrange as [[_ H]%andb_prop _]. lia.
  - apply andb_prop in Hrange as [_ H]. lia.
Qed.

(** On date texts the order of the BINARY collation is calendar order. *)
Lemma date_text_order (d1 d2 : string) (o1 o2 : Z) :
  date_ordinal d1 = Some o1 -> date_ordinal d2 = Some o2 ->
  (String.leb d1 d2 = true <-> o1 <= o2).
Proof.
  unfold date_ordinal.
  destruct (parse_ymd d1) as [[[Y1 M1] D1]|] eqn:H1; [|done].
  destruct (parse_ymd d2) as [[[Y2 M2] D2]|] eqn:H2; [|done].
  intros [= <-] [= <-].
  apply parse_ymd_inv in H1
    as (a1 & b1 & c1 & e1 & g1 & h1 & i1 & j1 & -> & Hd1 & -> & -> & -> & _ & _).
  apply parse_ymd_inv in H2
    as (a2 & b2 & c2 & e2 & g2 & h2 & i2 & j2 & -> & Hd2 & -> & -> & -> & _ & _).
  repeat match goal with
         | H : Forall _ (_ :: _) |- _ =>
             apply Forall_cons in H as [?%is_digit_value H]
         end.
  unfold String.leb. cbn [String.compare].
  rewrite !digit_compare.
  change (Ascii.compare "-" "-") with Eq. cbv iota.
  repeat match goal with
         | |- context [digit_value ?x ?= digit_value ?y] =>
             destruct (Z.compare_spec (digit_value x) (digit_value y))
         end;
    (split; [intros ?; lia | intros ?; first [reflexivity | lia]]).
Qed.

(** Filtering keeps the order of the rows it keeps. *)
Lemma filter_lookup_order {A : Type} (P : A -> Prop) `{forall x, Decision (P x)}
    (l : list A) (i j : nat) (x y : A) :
  l !! i = Some x -> l !! j = Some y -> (i < j)%nat -> P x -> P y ->
  exists i' j' : nat,
    (i' < j')%nat /\ filter P l !! i' = Some x /\ filter P l !! j' = Some y.
Proof.
  revert i j. induction l as [|a l IH]; intros i j Hi Hj Hij Px Py.
  - by rewrite lookup_nil in Hi.
  - destruct j as [|j]; [lia|]. cbn [lookup list_lookup] in Hj.
    destruct i as [|i].
    + injection Hi as ->. rewrite filter_cons_True by done.
      assert (Hy : y ∈ filter P l).
      { apply list_elem_of_filter. split; [done|]. by eapply list_elem_of_lookup_2. }
      apply list_elem_of_lookup_1 in Hy as [j' Hj'].
      exists 0%nat, (S j'). split_and!; [lia|done|done].
    + cbn [lookup list_lookup] in Hi.
      destruct (IH i j Hi Hj ltac:(lia) Px Py) as (i' & j' & Hlt & Hi' & Hj').
      rewrite filter_cons. destruct (decide (P a)).
      * exists (S i'), (S j'). split_and!; [lia|done|done].
      * exists i', j'. by split_and!.
Qed.

Lemma StronglySorted_lookup {A : Type} (R : relation A) (l : list A) :
  StronglySorted R l ->
  forall (i j : nat) (x y : A),
    l !! i = Some x -> l !! j = Some y -> (i < j)%nat -> R x y.
Proof.
  induction 1 as [|a l Hs IH Hall]; intros i j x y Hi Hj Hij.
  - by rewrite lookup_nil in Hi.
  - destruct i as [|i], j as [|j]; try lia; simpl in Hi, Hj.
    + injection Hi as ->. rewrite Forall_forall in Hall.
      apply Hall. by eapply list_elem_of_lookup_2.
    + eapply IH; [exact Hi|exact Hj|lia].
Qed.

Lemma StronglySorted_filter_fmap {A B : Type} (R : relation B) (f : A -> B)
    (P : A -> Prop) `{forall x, Decision (P x)} (l : list A) :
  StronglySorted R (f <$> l) -> StronglySorted R (f <$> filter P l).
Proof.
  induction l as [|x l IH]; [done|].
  rewrite fmap_cons. intros [Hall Hs]%StronglySorted_cons.
  rewrite filter_cons. destruct (decide (P x)); [|by apply IH].
  rewrite fmap_cons. apply StronglySorted_cons. split; [|by apply IH].
  rewrite Forall_forall in Hall. apply Forall_forall. intros y Hy. apply Hall.
  apply list_elem_of_fmap in Hy as (a & -> & Ha).
  apply list_elem_of_filter in Ha as [_ Ha].
  apply list_elem_of_fmap. by exists a.
Qed.

(** Two rows have the same sort key of the listing exactly when they have
    the same date text. *)
Lemma date_desc_tie (x y : expense) :
  date_desc x y && date_desc y x = true <-> e_date y = e_date x.
Proof.
  unfold date_desc. split.
  - intros [H1 H2]%andb_prop. by apply String.leb_antisym.
  - intros ->. apply andb_true_intro.
    assert (H : String.leb (e_date x) (e_date x) = true).
    { by destruct (String.leb_total (e_date x) (e_date x)). }
    by split.
Qed.

(** A stable engine lists the rows of every date in table order. *)
Lemma load_expenses_ties (ob : sorter) (rows : list expense) (d : string) :
  order_by_stable ob ->
  filter (fun e => e_date e = d) (ob expense date_desc rows)
  = filter (fun e => e_date e = d) rows.
Proof.
  intros Hst.
  pose proof (Hst expense date_desc rows (Expense 0 "" 0%float "" d)
                date_desc_total date_desc_trans) as H.
  rewrite !(list_filter_iff (fun e => e_date e = d)
              (fun y => date_desc (Expense 0 "" 0%float "" d) y
                        && date_desc y (Expense 0 "" 0%float "" d) = true)); [done| |];
    intros e; by rewrite date_desc_tie.
Qed.

(** C4. For every dataset, [load_expenses] returns all expense rows, each
    once, ordered by date descending: by the text of the date column,
    which on valid date texts is calendar order. Rows of equal date come
    in insertion order: the rows of each date are listed in the order the
    table holds them, which in a table whose ids ascend (every table the
    methods build) is the order of their ids. The query names no second
    sort key; the order of ties is that of SQLite's sorter, which is
    stable. *)
Theorem load_expenses_date_descending (ob : sorter) (self : DatabaseManager)
    (fs : gmap string database) (f : string) (db : database) :
  order_by_contract ob -> order_by_stable ob ->
  current_db_file self = Some f -> fs !! f = Some db ->
  exists out,
    load_expenses ob self fs = Some out
    /\ out ≡ₚ expenses db
    /\ (forall (i j : nat) (x y : expense),
          out !! i = Some x -> out !! j = Some y -> (i < j)%nat ->
          String.leb (e_date y) (e_date x) = true
          /\ (forall ox oy, date_ordinal (e_date x) = Some ox ->
                            date_ordinal (e_date y) = Some oy -> oy <= ox))
    /\ (forall d : string,
          filter (fun e => e_date e = d) out
          = filter (fun e => e_date e = d) (expenses db))
    /\ (StronglySorted Z.lt (e_id <$> expenses db) -> ties_in_insertion_order out).
Proof.
  intros Hob Hst Hf Hdb.
  destruct (load_expenses_contract ob self fs f db Hob Hf Hdb)
    as (out & Hout & Hperm & Hsorted).
  assert (Hout' : out = ob expense date_desc (expenses db)).
  { unfold load_expenses in Hout. rewrite (connect_Some _ _ _ _ Hf Hdb) in Hout.
    congruence. }
  exists out. split_and!; [done|done| | |].
  - intros i j x y Hi Hj Hij.
    pose proof (sorted_by_lookup date_desc out Hsorted i j x y Hi Hj Hij) as Hle.
    unfold date_desc in Hle. split; [done|].
    intros ox oy Hx Hy. by apply (date_text_order _ _ _ _ Hy Hx).
  - intros d. rewrite Hout'. by apply load_expenses_ties.
  - intros Hids i j x y Hi Hj Hij Hdate.
    destruct (filter_lookup_order (fun e => e_date e = e_date x) out i j x y
                Hi Hj Hij eq_refl (eq_sym Hdate)) as (i' & j' & Hlt & Hi' & Hj').
    rewrite Hout', load_expenses_ties in Hi', Hj' by done.
    apply (StronglySorted_lookup Z.lt
             (e_id <$> filter (fun e => e_date e = e_date x) (expenses db)))
      with (i := i') (j := j'); [by apply StronglySorted_filter_fmap| | |done].
    + by rewrite list_lookup_fmap, Hi'.
    + by rewrite list_lookup_fmap, Hj'.
Qed.

Lemma load_expenses_date_descending_witness :
  exists out,
    load_expenses stable_engine example_manager example_tie_fs = Some out
    /\ out ≡ₚ expenses (insert_expense "Tea" 1%float "Food" "2024-01-06"
                          (insert_or_ignore_category "Food" example_db))
    /\ (forall (i j : nat) (x y : expense),
          out !! i = Some x -> out !! j = Some y -> (i < j)%nat ->
          String.leb (e_date y) (e_date x) = true
          /\ (forall ox oy, date_ordinal (e_date x) = Some ox ->
                            date_ordinal (e_date y) = Some oy -> oy <= ox))
    /\ (forall d : string,
          filter (fun e => e_date e = d) out
          = filter (fun e => e_date e = d)
              (expenses (insert_expense "Tea" 1%float "Food" "2024-01-06"
                           (insert_or_ignore_category "Food" example_db))))
    /\ (StronglySorted Z.lt
          (e_id <$> expenses (insert_expense "Tea" 1%float "Food" "2024-01-06"
                                (insert_or_ignore_category "Food" example_db))) ->
        ties_in_insertion_order out).
Proof.
  apply (load_expenses_date_descending stable_engine example_manager example_tie_fs
           "expenses.db"
           (insert_expense "Tea" 1%float "Food" "2024-01-06"
              (insert_or_ignore_category "Food" example_db))).
  - exact stable_engine_contract.
  - exact stable_engine_stable.
  - reflexivity.
  - reflexivity.
Defined.

(** ** C2: totals by category *)

(** C2, as amended. For every dataset, [expenses_by_category] returns
    exactly one entry per category that has at least one expense, paired
    with the sum of that category's amounts, in order of descending sum
    (a NULL sum last). The sum of a category is what [SUM] makes of its
    rows in table order: on amounts that are all numbers, the amounts
    added one after another in double arithmetic. Nothing is said of the
    sum of the entries: see the lemma after the theorem. *)
Theorem expenses_by_category_totals (ob : sorter) (self : DatabaseManager)
    (fs : gmap string database) (f : string) (db : database) :
  order_by_contract ob ->
  current_db_file self = Some f -> fs !! f = Some db ->
  exists res : list (string * float),
    expenses_by_category ob self fs = Some res
    /\ NoDup res.*1
    /\ (forall c, c ∈ res.*1 <-> exists e, e ∈ expenses db /\ e_category e = c)
    /\ (forall c s, (c, s) ∈ res ->
          s = sql_sum (filter (fun e => e_category e = c) (expenses db)))
    /\ (no_null_amount (expenses db) ->
        forall c s, (c, s) ∈ res ->
          s = float_sum (e_amount <$> filter (fun e => e_category e = c) (expenses db)))
    /\ (forall (i j : nat) (x y : string * float),
          res !! i = Some x -> res !! j = Some y -> (i < j)%nat ->
          real_leb y.2 x.2 = true).
Proof.
  intros Hob Hf Hdb.
  unfold expenses_by_category. rewrite (connect_Some _ _ _ _ Hf Hdb).
  destruct (Hob (string * float)%type total_desc (group_sums e_category (expenses db)))
    as [Hperm Hsorted].
  set (res := ob (string * float)%type total_desc (group_sums e_category (expenses db)))
    in *.
  assert (Hkeys : res.*1 ≡ₚ remove_dups (e_category <$> expenses db)).
  { by rewrite Hperm, group_sums_keys. }
  exists res. split_and!; try done.
  - rewrite Hkeys. apply NoDup_remove_dups.
  - intros c. rewrite Hkeys, elem_of_remove_dups, list_elem_of_fmap.
    split; intros (e & H1 & H2); exists e; done.
  - intros c s Hin. rewrite Hperm in Hin.
    by apply group_sums_lookup in Hin as [Hs _].
  - intros Hall c s Hin. rewrite Hperm in Hin.
    apply group_sums_lookup in Hin as [-> (e & He & Hc)].
    apply sql_sum_no_null.
    + intros Hnil.
      assert (Hin : e ∈ filter (fun r => e_category r = c) (expenses db))
        by (by apply list_elem_of_filter).
      rewrite Hnil in Hin. by apply elem_of_nil in Hin.
    + apply Forall_forall. intros r [_ Hr]%list_elem_of_filter.
      unfold no_null_amount in Hall. rewrite Forall_forall in Hall. by apply Hall.
  - intros i j x y Hi Hj Hij.
    apply (sorted_by_lookup total_desc res) with (i := i) (j := j); try done.
    apply Hsorted; [apply total_desc_total|apply total_desc_trans].
Qed.

Lemma expenses_by_category_totals_witness :
  exists res : list (string * float),
    expenses_by_category stable_engine example_manager example_fs = Some res
    /\ NoDup res.*1
    /\ (forall c, c ∈ res.*1 <-> exists e, e ∈ expenses example_db /\ e_category e = c)
    /\ (forall c s, (c, s) ∈ res ->
          s = sql_sum (filter (fun e => e_category e = c) (expenses example_db)))
    /\ (no_null_amount (expenses example_db) ->
        forall c s, (c, s) ∈ res ->
          s = float_sum
                (e_amount <$> filter (fun e => e_category e = c) (expenses example_db)))
    /\ (forall (i j : nat) (x y : string * float),
          res !! i = Some x -> res !! j = Some y -> (i < j)%nat ->
          real_leb y.2 x.2 = true).
Proof.
  apply (expenses_by_category_totals stable_engine example_manager example_fs
           "expenses.db" example_db).
  - exact stable_engine_contract.
  - reflexivity.
  - reflexivity.
Defined.

(** C2, as stated, fails: the sums of the entries need not add up to the
    total. On the dataset with a tenth under A, a tenth under B and four
    tenths under A, the entries are (A, 0.5) and (B, 0.1) and the total is
    0.6000000000000001: the two sums added in either order give 0.6, and
    their exact sum is not the total either. *)
Lemma category_sums_do_not_add_up_to_total :
  match expenses_by_category stable_engine example_manager tenths_fs,
        total_expenses example_manager tenths_fs with
  | Some res, Some total =>
      res = [("A", 0.5%float); ("B", 0.1%float)]
      /\ total = 0.6000000000000001%float
      /\ (forall sums, sums ≡ₚ res.*2 -> float_sum sums <> total)
      /\ ~ (Qsum (float_value <$> res.*2) == float_value total)%Q
  | _, _ => False
  end.
Proof.
  vm_compute expenses_by_category. vm_compute total_expenses.
  split_and!; [reflexivity|reflexivity| |vm_compute; discriminate].
  intros sums Hperm. cbn [fmap list_fmap snd] in Hperm.
  symmetry in Hperm. apply Permutation_length_2_inv in Hperm as [->| ->];
    intros H; apply (f_equal (fun x => PrimFloat.eqb x 0.6%float)) in H;
    vm_compute in H; discriminate.
Qed.

(** ** C1: totals by month *)

(** [int(str(n)) = n]. *)
Lemma py_int_py_str (n : Z) : py_int (py_str n) = Some n.
Proof.
  unfold py_int, py_str.
  rewrite NilZero.isi.
  - simpl. by rewrite DecimalZ.of_to.
  - destruct n as [|p|p]; try done.
    simpl. intros [= H]. by apply DecimalPos.Unsigned.to_uint_nonnil in H.
  - destruct n as [|p|p]; try done.
    simpl. intros [= H]. by apply DecimalPos.Unsigned.to_uint_nonnil in H.
Qed.

Lemma below_in_range (n : Z) (b : Z -> bool) :
  forallb b (Z.of_nat <$> seq 0 (Z.to_nat n)) = true ->
  forall z, 0 <= z < n -> b z = true.
Proof.
  intros Hall z Hz. rewrite forallb_forall in Hall. apply Hall.
  apply list_elem_of_In, list_elem_of_fmap. exists (Z.to_nat z). split; [lia|].
  apply list_elem_of_In, in_seq. lia.
Qed.

Lemma fmt04_checked (Y : Z) : 0 <= Y <= 9999 -> fmt04_checks Y = true.
Proof.
  intros HY. apply (below_in_range 10000); [|lia].
  vm_compute. reflexivity.
Qed.

Lemma fmt02_checked (M : Z) : 0 <= M <= 99 -> fmt02_checks M = true.
Proof.
  intros HM. apply (below_in_range 100); [|lia].
  vm_compute. reflexivity.
Qed.

Lemma py_int_fmt04 (Y : Z) : 0 <= Y <= 9999 -> py_int (fmt04 Y) = Some Y.
Proof.
  intros H%fmt04_checked. unfold fmt04_checks in H.
  destruct (py_int (fmt04 Y)) as [n|]; [|done].
  apply andb_prop in H as [H _]. f_equal. lia.
Qed.

Lemma fmt04_py_str (Y : Z) : 1000 <= Y <= 9999 -> fmt04 Y = py_str Y.
Proof.
  intros HY. assert (H : fmt04_checks Y = true) by (apply fmt04_checked; lia).
  unfold fmt04_checks in H.
  destruct (py_int (fmt04 Y)) as [n|]; [|done].
  apply andb_prop in H as [_ H]. apply orb_prop in H as [H|H]; [lia|].
  by apply String.eqb_eq.
Qed.

Lemma py_int_fmt02 (M : Z) : 0 <= M <= 99 -> py_int (fmt02 M) = Some M.
Proof.
  intros H%fmt02_checked. unfold fmt02_checks in H.
  destruct (py_int (fmt02 M)) as [n|]; [|done]. f_equal. lia.
Qed.

Lemma parse_ymd_ranges (d : string) (Y M D : Z) :
  parse_ymd d = Some (Y, M, D) -> 0 <= Y <= 9999 /\ 1 <= M <= 12 /\ 1 <= D <= 31.
Proof.
  intros (ya & yb & yc & yd & ma & mb & da & db & _ & Hdig & -> & _ & _ & HM & HD)
    %parse_ymd_inv.
  repeat match goal with
         | H : Forall _ (_ :: _) |- _ =>
             apply Forall_cons in H as [?%is_digit_value H]
         end.
  lia.
Qed.

(** The WHERE clause selects the rows of the year asked for, when that
    year has four digits. *)
Lemma where_year_iff (d : string) (y : Z) :
  1000 <= y -> (strftime_Y d = Some (py_str y) <-> date_year d = Some y).
Proof.
  intros Hy. unfold strftime_Y, date_year.
  destruct (parse_ymd d) as [[[Y M] D]|] eqn:Hp; [|done].
  apply parse_ymd_ranges in Hp as (HY & _ & _).
  split; intros [= H]; f_equal.
  - assert (Some Y = Some y) as [= ->]; [|done].
    by rewrite <- (py_int_fmt04 Y), H, py_int_py_str.
  - subst Y. apply fmt04_py_str. lia.
Qed.

Lemma fmt02_order (a b : Z) :
  0 <= a <= 99 -> 0 <= b <= 99 ->
  String.leb (fmt02 a) (fmt02 b) = true -> a <= b.
Proof.
  intros Ha Hb Hle.
  assert (H : fmt02_order_checks (100 * a + b) = true).
  { apply (below_in_range 10000); [|lia]. vm_compute. reflexivity. }
  unfold fmt02_order_checks in H. cbv zeta in H.
  replace ((100 * a + b) / 100) with a in H by (apply Z.div_unique with b; lia).
  replace ((100 * a + b) mod 100) with b in H by (apply Z.mod_unique with a; lia).
  rewrite Hle in H. simpl in H. lia.
Qed.

(** The key of a selected row is the two-digit text of its month. *)
Lemma month_key (d : string) (y : Z) :
  date_year d = Some y ->
  exists n, 1 <= n <= 12
    /\ date_month d = Some n
    /\ strftime_m d = Some (fmt02 n)
    /\ month_number (strftime_m d) = n.
Proof.
  unfold date_year, date_month, strftime_m.
  destruct (parse_ymd d) as [[[Y M] D]|] eqn:Hp; [|done]. intros _.
  apply parse_ymd_ranges in Hp as (_ & HM & _).
  exists M. split_and!; try done; try lia.
  unfold month_number. rewrite py_int_fmt02 by lia. done.
Qed.

Lemma StronglySorted_strengthen {A : Type} (R R' : relation A) (l : list A) :
  StronglySorted R l -> NoDup l ->
  (forall x y, x ∈ l -> y ∈ l -> x <> y -> R x y -> R' x y) ->
  StronglySorted R' l.
Proof.
  induction 1 as [|a l Hs IH Hall]; intros Hnd Himp; [constructor|].
  apply NoDup_cons in Hnd as [Ha Hnd]. constructor.
  - apply IH; [done|]. intros x y Hx Hy. apply Himp; by apply list_elem_of_further.
  - rewrite Forall_forall in Hall. apply Forall_forall. intros y Hy.
    apply Himp; [apply list_elem_of_here|by apply list_elem_of_further| |by apply Hall].
    intros ->. done.
Qed.

#[local] Arguments fmt02 : simpl never.
#[local] Arguments fmt04 : simpl never.
#[local] Arguments py_int : simpl never.
#[local] Arguments py_str : simpl never.
#[local] Arguments month_number : simpl never.
#[local] Arguments strftime_m : simpl never.

(** [str(year)] of a year from 1 to 999 has fewer than four characters. *)
Lemma py_str_short (y : Z) : 1 <= y <= 999 -> (String.length (py_str y) < 4)%nat.
Proof.
  intros Hy. assert (H : short_year_checks y = true).
  { apply (below_in_range 1000); [|lia]. vm_compute. reflexivity. }
  unfold short_year_checks in H. apply orb_prop in H as [H|H]; [lia|].
  by apply Nat.ltb_lt.
Qed.

(** The engine renders the year of every date with four characters. *)
Lemma strftime_Y_length (d t : string) :
  strftime_Y d = Some t -> String.length t = 4%nat.
Proof.
  unfold strftime_Y. destruct (parse_ymd d) as [[[Y M] D]|]; [|done].
  by intros [= <-].
Qed.

(** C1 fails on the code. The query compares [strftime('%Y', date)],
    always four characters, with [str(year)], which for a year from 1 to
    999 has at most three: the WHERE clause then selects no row, and
    [expenses_by_month] returns the empty list whatever expenses the
    dataset holds for that year. *)
Theorem expenses_by_month_misses_years_before_1000 (ob : sorter)
    (self : DatabaseManager) (fs : gmap string database) (f : string)
    (db : database) (current_year y : Z) :
  order_by_contract ob ->
  current_db_file self = Some f -> fs !! f = Some db ->
  1 <= y <= 999 ->
  expenses_by_month ob self fs current_year (Some y) = Some [].
Proof.
  intros Hob Hf Hdb Hy. unfold expenses_by_month.
  rewrite (connect_Some _ _ _ _ Hf Hdb).
  assert (year_or_current (Some y) current_year = y) as ->.
  { unfold year_or_current. destruct (Z.eqb_spec y 0); [lia|done]. }
  assert (Hnone : filter (fun e => strftime_Y (e_date e) = Some (py_str y))
                    (expenses db) = []).
  { induction (expenses db) as [|e rows IH]; [done|].
    rewrite filter_cons_False; [done|]. intros Heq.
    apply strftime_Y_length in Heq. pose proof (py_str_short y Hy). lia. }
  rewrite Hnone. f_equal.
  destruct (Hob (option string * float)%type month_asc
              (group_sums (fun e => strftime_m (e_date e)) [])) as [Hperm _].
  by apply Permutation_nil_r in Hperm.
Qed.

(** The failing input: the dataset [early_db] holds one expense, dated
    0999-05-01, a valid date of the year 999, and the answer for the year
    999 is empty. *)
Lemma expenses_by_month_misses_years_before_1000_witness :
  (exists e, e ∈ expenses early_db
             /\ valid_date (e_date e) = true /\ in_month 999 5 e)
  /\ expenses_by_month stable_engine example_manager early_fs 2024 (Some 999)
     = Some [].
Proof.
  split.
  - eexists. split; [apply list_elem_of_here|]. vm_compute. done.
  - apply (expenses_by_month_misses_years_before_1000 stable_engine example_manager
             early_fs "expenses.db" early_db 2024 999).
    + exact stable_engine_contract.
    + reflexivity.
    + reflexivity.
    + lia.
Defined.

(** *** Years of four digits *)

(** X16. For every dataset whose dates are valid [YYYY-MM-DD] texts, and
    every call whose year, after [year or current_year], has four digits
    or more, [expenses_by_month] returns one entry per month that has at
    least one expense dated in that calendar year, keyed by the two-digit
    text of its month number, from 1 to 12, in ascending month order; a
    month without expenses in that year has no entry; and each entry
    carries what [SUM] makes of the rows of its month in table order. *)
Theorem expenses_by_month_four_digit_years (ob : sorter) (self : DatabaseManager)
    (fs : gmap string database) (f : string) (db : database)
    (current_year : Z) (year : option Z) :
  order_by_contract ob ->
  current_db_file self = Some f -> fs !! f = Some db ->
  Forall (fun e => valid_date (e_date e) = true) (expenses db) ->
  1000 <= year_or_current year current_year ->
  exists (res : list (option string * float)) (months : list Z),
    expenses_by_month ob self fs current_year year = Some res
    /\ months = month_number <$> res.*1
    /\ res.*1 = (fun n => Some (fmt02 n)) <$> months
    /\ Forall (fun n => 1 <= n <= 12) months
    /\ StronglySorted Z.lt months
    /\ (forall n, n ∈ months <->
          exists e, e ∈ expenses db
                    /\ in_month (year_or_current year current_year) n e)
    /\ (forall n s, n ∈ months -> (Some (fmt02 n), s) ∈ res ->
          s = sql_sum (filter (in_month (year_or_current year current_year) n)
                         (expenses db))).
Proof.
  intros Hob Hf Hdb _ Hy.
  unfold expenses_by_month.
  set (y := year_or_current year current_year) in *.
  rewrite (connect_Some _ _ _ _ Hf Hdb).
  set (rows := expenses db).
  rewrite (list_filter_iff _ (in_year y) rows)
    by (intros e; by apply where_year_iff).
  set (sel := filter (in_year y) rows).
  set (key := fun e : expense => strftime_m (e_date e)).
  destruct (Hob (option string * float)%type month_asc (group_sums key sel))
    as [Hperm Hsorted].
  set (res := ob (option string * float)%type month_asc (group_sums key sel)) in *.
  assert (Hkeys : res.*1 ≡ₚ remove_dups (key <$> sel)).
  { by rewrite Hperm, group_sums_keys. }
  assert (Hnd : NoDup res.*1).
  { rewrite Hkeys. apply NoDup_remove_dups. }
  assert (Hrow : forall e, e ∈ sel ->
            exists n, 1 <= n <= 12 /\ in_month y n e
                      /\ key e = Some (fmt02 n) /\ month_number (key e) = n).
  { intros e [Hyr _]%list_elem_of_filter.
    destruct (month_key _ _ Hyr) as (n & Hn & Hm & Hs & Hnum).
    exists n. split_and!; [lia|lia|by split|exact Hs|exact Hnum]. }
  assert (Hkey : forall k, k ∈ res.*1 ->
            exists e n, e ∈ sel /\ 1 <= n <= 12 /\ in_month y n e
                        /\ k = Some (fmt02 n) /\ month_number k = n).
  { intros k Hk. rewrite Hkeys, elem_of_remove_dups, list_elem_of_fmap in Hk.
    destruct Hk as (e & -> & He).
    destruct (Hrow e He) as (n & Hn & Hm & Hs & Hnum).
    exists e, n. split_and!; [done|lia|lia|done|exact Hs|exact Hnum]. }
  exists res, (month_number <$> res.*1).
  split_and!.
  - reflexivity.
  - reflexivity.
  - rewrite <- list_fmap_compose.
    rewrite <- (list_fmap_id res.*1) at 1.
    apply list_fmap_ext. intros i k Hk.
    apply list_elem_of_lookup_2, Hkey in Hk as (e & n & _ & _ & _ & -> & Hnum).
    simpl. by rewrite Hnum.
  - apply Forall_fmap, Forall_forall. intros k Hk.
    apply Hkey in Hk as (e & n & _ & Hn & _ & _ & Hnum). simpl. lia.
  - apply (StronglySorted_fmap month_number
             (fun k1 k2 => month_number k1 < month_number k2)); [done|].
    apply (StronglySorted_strengthen (fun k1 k2 => option_text_leb k1 k2 = true));
      [|done|].
    + apply (StronglySorted_fmap fst (fun x y => month_asc x y = true)); [done|].
      apply Hsorted; [apply month_asc_total|apply month_asc_trans].
    + intros k1 k2 Hk1 Hk2 Hne Hle.
      apply Hkey in Hk1 as (_ & n1 & _ & Hn1 & _ & -> & ->).
      apply Hkey in Hk2 as (_ & n2 & _ & Hn2 & _ & -> & ->).
      simpl in Hle. apply fmt02_order in Hle; [|lia|lia].
      assert (n1 <> n2) by congruence. lia.
  - intros n. rewrite list_elem_of_fmap. split.
    + intros (k & -> & Hk).
      apply Hkey in Hk as (e & n & [_ He]%list_elem_of_filter & _ & Hm & _ & ->).
      by exists e.
    + intros (e & He & Hm).
      assert (Hsel : e ∈ sel) by (apply list_elem_of_filter; split; [apply Hm|done]).
      destruct (Hrow e Hsel) as (n' & _ & Hm' & Hk & Hnum).
      assert (n' = n) as -> by (destruct Hm as [_ H1], Hm' as [_ H2]; congruence).
      exists (key e). split; [done|].
      rewrite Hkeys. apply elem_of_remove_dups, list_elem_of_fmap. by exists e.
  - intros n s Hn Hin. rewrite Hperm in Hin.
    apply group_sums_lookup in Hin as [-> _]. f_equal.
    unfold sel. rewrite list_filter_filter.
    apply list_elem_of_fmap in Hn as (k & -> & Hk).
    apply Hkey in Hk as (_ & n & _ & Hn & _ & -> & Hnum). rewrite Hnum.
    apply list_filter_iff.
    intros e. unfold key. split.
    + intros [Hk Hyr]. destruct (month_key _ _ Hyr) as (n' & Hn' & Hm & Hs' & _).
      rewrite Hs' in Hk.
      assert (Hfmt : fmt02 n' = fmt02 n) by congruence.
      assert (Some n' = Some n) as [= ->]; [|by split].
      rewrite <- (py_int_fmt02 n'), <- (py_int_fmt02 n), Hfmt by lia. done.
    + intros [Hyr Hm]. split; [|done].
      destruct (month_key _ _ Hyr) as (n' & _ & Hm' & Hs' & _).
      rewrite Hs'. congruence.
Qed.

Lemma expenses_by_month_four_digit_years_witness :
  exists (res : list (option string * float)) (months : list Z),
    expenses_by_month stable_engine example_manager example_fs 2026 (Some 2024)
      = Some res
    /\ months = month_number <$> res.*1
    /\ res.*1 = (fun n => Some (fmt02 n)) <$> months
    /\ Forall (fun n => 1 <= n <= 12) months
    /\ StronglySorted Z.lt months
    /\ (forall n, n ∈ months <->
          exists e, e ∈ expenses example_db /\ in_month 2024 n e)
    /\ (forall n s, n ∈ months -> (Some (fmt02 n), s) ∈ res ->
          s = sql_sum (filter (in_month 2024 n) (expenses example_db))).
Proof.
  apply (expenses_by_month_four_digit_years stable_engine example_manager example_fs
           "expenses.db" example_db 2026 (Some 2024)).
  - exact stable_engine_contract.
  - reflexivity.
  - reflexivity.
  - repeat constructor.
  - vm_compute. discriminate.
Defined.

(** ** C7: the names of the backing files *)

Lemma is_alnum_spec (c : ascii) : is_alnum c = bool_decide (c ∈ alnum_chars).
Proof.
  destruct c as [[] [] [] [] [] [] [] []]; vm_compute; reflexivity.
Qed.

Lemma sanitize_char_spec (c : ascii) :
  sanitize_char c = if decide (c ∈ alnum_chars) then c else "_"%char.
Proof.
  unfold sanitize_char. rewrite is_alnum_spec.
  destruct (decide (c ∈ alnum_chars)) as [H|H].
  - by rewrite bool_decide_true.
  - by rewrite bool_decide_false.
Qed.

Lemma re_sub_non_alnum_length (s : string) :
  String.length (re_sub_non_alnum s) = String.length s.
Proof. induction s as [|c s IH]; simpl; [done|]. by rewrite IH. Qed.

Lemma re_sub_non_alnum_get (s : string) (i : nat) :
  String.get i (re_sub_non_alnum s) = sanitize_char <$> String.get i s.
Proof.
  revert i. induction s as [|c s IH]; intros i; simpl; [done|].
  destruct i as [|i]; [done|]. apply IH.
Qed.

Lemma sanitize_email_Some (address : string) :
  sanitize_email (Some address) = re_sub_non_alnum address.
Proof. by destruct address. Qed.

Lemma truthy_str_nonempty (address : string) :
  address <> "" -> truthy_str (Some address) = true.
Proof. by destruct address. Qed.

Lemma create_table_Some (os_accepts : string -> bool) (self : DatabaseManager)
    (fs : gmap string database) (f : string) :
  current_db_file self = Some f -> os_accepts f = true ->
  exists fs', create_table os_accepts self fs = Some fs'
    /\ (forall g, g <> f -> fs' !! g = fs !! g)
    /\ (fs' !! f = Some (default empty_database (fs !! f))).
Proof.
  intros Hf Hos. unfold create_table. rewrite Hf, Hos.
  destruct (fs !! f) as [db|] eqn:Hdb.
  - exists fs. by split_and!.
  - eexists. split_and!; [done| |].
    + intros g Hg. by apply lookup_insert_ne.
    + apply lookup_insert_eq.
Qed.

Lemma create_table_refused (os_accepts : string -> bool) (self : DatabaseManager)
    (fs : gmap string database) (f : string) :
  current_db_file self = Some f -> os_accepts f = false ->
  create_table os_accepts self fs = None.
Proof. intros Hf Hos. unfold create_table. by rewrite Hf, Hos. Qed.

(** C7. For every email address, the email-keyed backing file is named
    ["expenses_"], then the sanitized address, then [".db"], where
    sanitizing keeps the length of the address and replaces each character
    outside [A-Za-z0-9] by an underscore, leaving the others as they are.
    [switch_database] points the manager at that name for every address,
    whether or not the file can then be opened; it returns [True] when
    the operating system accepts the name. The constructor uses the name
    for every address that is not empty: every manager it builds for the
    address has it, and it builds one when the operating system accepts
    the name. The local backing file has the fixed name ["expenses.db"],
    which no switch changes. *)
Theorem email_keyed_file_name (address : string) :
  (forall os_accepts self fs,
      current_db_file (switch_database os_accepts self fs false (Some address)).1
      = Some ("expenses_" +:+ sanitize_email (Some address) +:+ ".db")
      /\ (os_accepts ("expenses_" +:+ sanitize_email (Some address) +:+ ".db") = true ->
          exists fs',
            (switch_database os_accepts self fs false (Some address)).2
            = Some (fs', true)))
  /\ (address <> "" -> forall os_accepts fs,
        (forall self fs',
            __init__ os_accepts false (Some address) fs = Some (self, fs') ->
            current_db_file self
            = Some ("expenses_" +:+ sanitize_email (Some address) +:+ ".db"))
        /\ (os_accepts ("expenses_" +:+ sanitize_email (Some address) +:+ ".db") = true ->
            exists self fs',
              __init__ os_accepts false (Some address) fs = Some (self, fs')))
  /\ String.length (sanitize_email (Some address)) = String.length address
  /\ (forall (i : nat) (c : ascii), String.get i address = Some c ->
        String.get i (sanitize_email (Some address))
        = Some (if decide (c ∈ alnum_chars) then c else "_"%char))
  /\ (forall os_accepts e fs,
        (forall self fs',
            __init__ os_accepts true e fs = Some (self, fs') ->
            local_db_file self = "expenses.db"
            /\ current_db_file self = Some "expenses.db")
        /\ (os_accepts "expenses.db" = true ->
            exists self fs', __init__ os_accepts true e fs = Some (self, fs')))
  /\ (forall os_accepts self fs is_local e,
        local_db_file (switch_database os_accepts self fs is_local e).1
        = local_db_file self
        /\ (is_local = true ->
            current_db_file (switch_database os_accepts self fs is_local e).1
            = Some (local_db_file self))).
Proof.
  split_and!.
  - intros os self fs. unfold switch_database. split.
    + by destruct (create_table _ _ _).
    + intros Hos.
      edestruct (create_table_Some os) as (fs' & -> & _); [reflexivity|exact Hos|].
      by eexists.
  - intros Hne os fs. unfold __init__. rewrite (truthy_str_nonempty _ Hne). split.
    + intros self fs'. destruct (create_table _ _ _); [|done]. by intros [= <- _].
    + intros Hos.
      edestruct (create_table_Some os) as (fs' & -> & _); [reflexivity|exact Hos|].
      by eexists _, _.
  - rewrite sanitize_email_Some. apply re_sub_non_alnum_length.
  - intros i c Hc. rewrite sanitize_email_Some, re_sub_non_alnum_get, Hc. simpl.
    by rewrite sanitize_char_spec.
  - intros os e fs. unfold __init__. split.
    + intros self fs'. destruct (create_table _ _ _); [|done]. by intros [= <- _].
    + intros Hos.
      edestruct (create_table_Some os) as (fs' & -> & _); [reflexivity|exact Hos|].
      by eexists _, _.
  - intros os self fs [] e; unfold switch_database;
      destruct (create_table _ _ _); by split.
Qed.

Lemma email_keyed_file_name_witness :
  current_db_file
    (switch_database journal_fits_255 example_manager example_fs false
       (Some "a.b@x.com")).1
  = Some "expenses_a_b_x_com.db"
  /\ exists fs',
       (switch_database journal_fits_255 example_manager example_fs false
          (Some "a.b@x.com")).2 = Some (fs', true).
Proof.
  destruct (email_keyed_file_name "a.b@x.com") as (H & _).
  destruct (H journal_fits_255 example_manager example_fs) as [Hname Hok].
  split; [exact Hname|]. apply Hok. reflexivity.
Defined.

(** ** C8: switching between datasets *)

(** A request touches the current file only, and what it leaves there
    depends on nothing but what it found there. *)
Lemma perform_frame (self : DatabaseManager) (fs : gmap string database)
    (r : request) (g : string) :
  current_db_file self <> Some g -> (perform self fs r).1 !! g = fs !! g.
Proof.
  intros Hg.
  destruct r as [d a c dt|i d a c dt|i]; simpl;
    unfold add_expense, update_expense, delete_expense, connect;
    (destruct (current_db_file self) as [f|]; [|done]);
    (destruct (fs !! f); [|done]);
    try (destruct (fits_int64 i); [|done]); simpl;
    apply lookup_insert_ne; congruence.
Qed.

Lemma perform_local (self : DatabaseManager) (fs1 fs2 : gmap string database)
    (r : request) (f : string) :
  current_db_file self = Some f -> fs1 !! f = fs2 !! f ->
  (perform self fs1 r).1 !! f = (perform self fs2 r).1 !! f.
Proof.
  intros Hf Heq.
  destruct r as [d a c dt|i d a c dt|i]; simpl;
    unfold add_expense, update_expense, delete_expense, connect;
    rewrite Hf, <- Heq;
    (destruct (fs1 !! f) eqn:H1; [|simpl; congruence]);
    try (destruct (fits_int64 i); [|simpl; congruence]); simpl;
    by rewrite !lookup_insert_eq.
Qed.

Lemma perform_all_cons (self : DatabaseManager) (r : request) (rs : list request)
    (fs : gmap string database) :
  perform_all self (r :: rs) fs = perform_all self rs (perform self fs r).1.
Proof. reflexivity. Qed.

Lemma perform_all_frame (self : DatabaseManager) (rs : list request)
    (fs : gmap string database) (g : string) :
  current_db_file self <> Some g -> perform_all self rs fs !! g = fs !! g.
Proof.
  intros Hg. revert fs. induction rs as [|r rs IH]; intros fs; [done|].
  rewrite perform_all_cons, IH. by apply perform_frame.
Qed.

Lemma perform_all_local (self : DatabaseManager) (rs : list request)
    (fs1 fs2 : gmap string database) (f : string) :
  current_db_file self = Some f -> fs1 !! f = fs2 !! f ->
  perform_all self rs fs1 !! f = perform_all self rs fs2 !! f.
Proof.
  intros Hf. revert fs1 fs2. induction rs as [|r rs IH]; intros fs1 fs2 Heq; [done|].
  rewrite !perform_all_cons. apply IH. by apply perform_local.
Qed.

Lemma switch_to_Some (os_accepts : string -> bool) (self : DatabaseManager)
    (fs : gmap string database) (sel : selector) :
  os_accepts (selector_file self sel) = true ->
  exists self' fs',
    switch_to os_accepts self fs sel = (self', Some (fs', true))
    /\ current_db_file self' = Some (selector_file self sel)
    /\ local_db_file self' = local_db_file self
    /\ (forall g, g <> selector_file self sel -> fs' !! g = fs !! g)
    /\ fs' !! selector_file self sel
       = Some (default empty_database (fs !! selector_file self sel)).
Proof.
  intros Hos.
  destruct sel as [|a]; simpl in *; unfold switch_database;
    (edestruct (create_table_Some os_accepts) as (fs' & -> & Hother & Hthis);
     [reflexivity|exact Hos|]);
    eexists _, _; split_and!; done.
Qed.


Lemma connect_agree (self1 self2 : DatabaseManager) (fs1 fs2 : gmap string database)
    (f : string) :
  current_db_file self1 = Some f -> current_db_file self2 = Some f ->
  fs1 !! f = fs2 !! f -> connect self1 fs1 = connect self2 fs2.
Proof. intros H1 H2 Heq. unfold connect. by rewrite H1, H2, Heq. Qed.

(** Every query is a function of the current file's content. *)
Lemma queries_read_current_file (ob : sorter) (self1 self2 : DatabaseManager)
    (fs1 fs2 : gmap string database) (current_year : Z) (year : option Z) :
  connect self1 fs1 = connect self2 fs2 ->
  load_expenses ob self1 fs1 = load_expenses ob self2 fs2
  /\ get_categories ob self1 fs1 = get_categories ob self2 fs2
  /\ total_expenses self1 fs1 = total_expenses self2 fs2
  /\ expenses_by_category ob self1 fs1 = expenses_by_category ob self2 fs2
  /\ expenses_by_month ob self1 fs1 current_year year
     = expenses_by_month ob self2 fs2 current_year year.
Proof.
  intros H.
  unfold load_expenses, get_categories, total_expenses, expenses_by_category,
    expenses_by_month.
  by rewrite H.
Qed.

Lemma local_file_differs (self : DatabaseManager) (a : string) :
  local_db_file self = "expenses.db" ->
  selector_file self Local <> selector_file self (EmailKeyed a).
Proof. simpl. intros ->. unfold email_file_name. cbn. intros [=]. Qed.

Lemma perform_present (self : DatabaseManager) (fs : gmap string database)
    (r : request) (g : string) :
  is_Some (fs !! g) -> is_Some ((perform self fs r).1 !! g).
Proof.
  intros Hg.
  destruct r as [d a c dt|i d a c dt|i]; simpl;
    unfold add_expense, update_expense, delete_expense, connect;
    (destruct (current_db_file self) as [f|]; [|done]);
    (destruct (fs !! f) eqn:Hf; [|done]);
    try (destruct (fits_int64 i); [|done]); simpl;
    (destruct (decide (f = g)) as [->|Hne];
     [rewrite lookup_insert_eq; eauto | by rewrite lookup_insert_ne]).
Qed.

Lemma perform_all_present (self : DatabaseManager) (rs : list request)
    (fs : gmap string database) (g : string) :
  is_Some (fs !! g) -> is_Some (perform_all self rs fs !! g).
Proof.
  revert fs. induction rs as [|r rs IH]; intros fs Hg; [done|].
  rewrite perform_all_cons. by apply IH, perform_present.
Qed.

Lemma selector_file_local (self1 self2 : DatabaseManager) (sel : selector) :
  local_db_file self1 = local_db_file self2 ->
  selector_file self1 sel = selector_file self2 sel.
Proof. intros H. destruct sel; simpl; congruence. Qed.

Lemma switch_to_same_manager (os_accepts : string -> bool) (self : DatabaseManager)
    (fs1 fs2 : gmap string database) (sel : selector) :
  (switch_to os_accepts self fs1 sel).1 = (switch_to os_accepts self fs2 sel).1.
Proof.
  destruct sel; simpl; unfold switch_database;
    repeat match goal with
           | |- context [create_table ?os ?m ?fs] => destruct (create_table os m fs)
           end; done.
Qed.

(** Texts can be cancelled on the right of a concatenation. *)
Lemma append_cons (c : ascii) (s t : string) :
  String c s +:+ t = String c (s +:+ t).
Proof. reflexivity. Qed.

Lemma append_nil_l (t : string) : "" +:+ t = t.
Proof. reflexivity. Qed.

Lemma length_append (s t : string) :
  String.length (s +:+ t) = (String.length s + String.length t)%nat.
Proof.
  induction s as [|c s IH]; [done|]. rewrite append_cons. simpl. by rewrite IH.
Qed.

Lemma append_inj_r (s t u : string) : s +:+ u = t +:+ u -> s = t.
Proof.
  revert t. induction s as [|c s IH]; intros [|c' t] H.
  - done.
  - apply (f_equal String.length) in H.
    rewrite append_nil_l, append_cons in H. cbn [String.length] in H.
    rewrite length_append in H. lia.
  - apply (f_equal String.length) in H.
    rewrite append_nil_l, append_cons in H. cbn [String.length] in H.
    rewrite length_append in H. lia.
  - rewrite !append_cons in H. injection H as -> H. f_equal. by apply IH.
Qed.

(** Two email-keyed selectors name one file exactly when their addresses
    sanitize to the same text. *)
Lemma email_file_name_inj (a b : option string) :
  email_file_name a = email_file_name b <-> sanitize_email a = sanitize_email b.
Proof.
  unfold email_file_name. split; [|by intros ->].
  intros H. apply (inj (String.append "expenses_")) in H.
  by apply append_inj_r in H.
Qed.

(** C8, as amended. For every pair of dataset selectors whose backing
    files differ (the local selector and an email-keyed one always do; two
    email-keyed ones do exactly when their addresses sanitize to different
    texts) and are accepted by the operating system, switching from A to
    B and working under B leaves the dataset of A untouched: every query
    under B answers as it would had nothing been done under A, and after
    switching back to A the dataset of A is what it was when A was
    left. *)
Theorem switching_isolates_datasets (os_accepts : string -> bool) (ob : sorter)
    (self : DatabaseManager) (fs : gmap string database) (A B : selector)
    (reqsA reqsB : list request) (current_year : Z) (year : option Z) :
  selector_file self A <> selector_file self B ->
  os_accepts (selector_file self A) = true ->
  os_accepts (selector_file self B) = true ->
  exists selfA fsA selfB fsB fsB0 selfA' fsA',
    switch_to os_accepts self fs A = (selfA, Some (fsA, true))
    /\ switch_to os_accepts selfA (perform_all selfA reqsA fsA) B
       = (selfB, Some (fsB, true))
    /\ switch_to os_accepts selfA fsA B = (selfB, Some (fsB0, true))
    /\ perform_all selfB reqsB fsB !! selector_file self A
       = perform_all selfA reqsA fsA !! selector_file self A
    /\ load_expenses ob selfB (perform_all selfB reqsB fsB)
       = load_expenses ob selfB (perform_all selfB reqsB fsB0)
    /\ get_categories ob selfB (perform_all selfB reqsB fsB)
       = get_categories ob selfB (perform_all selfB reqsB fsB0)
    /\ total_expenses selfB (perform_all selfB reqsB fsB)
       = total_expenses selfB (perform_all selfB reqsB fsB0)
    /\ expenses_by_category ob selfB (perform_all selfB reqsB fsB)
       = expenses_by_category ob selfB (perform_all selfB reqsB fsB0)
    /\ expenses_by_month ob selfB (perform_all selfB reqsB fsB) current_year year
       = expenses_by_month ob selfB (perform_all selfB reqsB fsB0) current_year year
    /\ switch_to os_accepts selfB (perform_all selfB reqsB fsB) A
       = (selfA', Some (fsA', true))
    /\ connect selfA' fsA' = connect selfA (perform_all selfA reqsA fsA)
    /\ is_Some (connect selfA' fsA')
    /\ (local_db_file self = "expenses.db" ->
        forall a, selector_file self Local <> selector_file self (EmailKeyed a))
    /\ (forall a b,
          selector_file self (EmailKeyed a) = selector_file self (EmailKeyed b)
          <-> sanitize_email (Some a) = sanitize_email (Some b)).
Proof.
  intros Hdiff HosA HosB.
  set (fA := selector_file self A) in *. set (fB := selector_file self B) in *.
  destruct (switch_to_Some os_accepts self fs A HosA)
    as (selfA & fsA & HsA & HcA & HlA & _ & HtA).
  fold fA in HcA, HtA.
  set (fsA1 := perform_all selfA reqsA fsA).
  assert (HosB' : os_accepts (selector_file selfA B) = true).
  { by rewrite (selector_file_local selfA self B HlA). }
  destruct (switch_to_Some os_accepts selfA fsA1 B HosB')
    as (selfB & fsB & HsB & HcB & HlB & HoB & HtB).
  destruct (switch_to_Some os_accepts selfA fsA B HosB')
    as (selfB0 & fsB0 & HsB0 & _ & _ & _ & HtB0).
  assert (selfB0 = selfB) as ->.
  { pose proof (switch_to_same_manager os_accepts selfA fsA fsA1 B) as H.
    by rewrite HsB, HsB0 in H. }
  rewrite (selector_file_local selfA self B HlA) in HcB, HoB, HtB, HtB0.
  fold fB in HcB, HoB, HtB, HtB0.
  set (fsB1 := perform_all selfB reqsB fsB).
  assert (HosA' : os_accepts (selector_file selfB A) = true).
  { rewrite (selector_file_local selfB self A); [done|congruence]. }
  destruct (switch_to_Some os_accepts selfB fsB1 A HosA')
    as (selfA' & fsA' & HsA' & HcA' & _ & _ & HtA').
  rewrite (selector_file_local selfB self A) in HcA', HtA' by congruence.
  fold fA in HcA', HtA'.
  assert (HA_kept : fsB1 !! fA = fsA1 !! fA).
  { unfold fsB1. rewrite perform_all_frame by congruence. by apply HoB. }
  assert (HA_there : is_Some (fsA1 !! fA)).
  { apply perform_all_present. rewrite HtA. eauto. }
  assert (HB_same : fsB1 !! fB = perform_all selfB reqsB fsB0 !! fB).
  { apply perform_all_local; [done|]. rewrite HtB, HtB0. do 2 f_equal.
    unfold fsA1. apply perform_all_frame. congruence. }
  assert (Hback : connect selfA' fsA' = connect selfA fsA1).
  { apply (connect_agree _ _ _ _ fA); [done|done|].
    rewrite HtA', HA_kept. by destruct HA_there as [db ->]. }
  exists selfA, fsA, selfB, fsB, fsB0, selfA', fsA'.
  destruct (queries_read_current_file ob selfB selfB fsB1
              (perform_all selfB reqsB fsB0) current_year year)
    as (Q1 & Q2 & Q3 & Q4 & Q5).
  { by apply (connect_agree _ _ _ _ fB). }
  split_and!; try done.
  - rewrite Hback. destruct HA_there as [db Hdb].
    exists (fA, db). by apply connect_Some.
  - intros Hl a. by apply local_file_differs.
  - intros a b. apply email_file_name_inj.
Qed.

Lemma switching_isolates_datasets_witness :
  exists selfA fsA selfB fsB fsB0 selfA' fsA',
    switch_to journal_fits_255 example_manager example_fs (EmailKeyed "me@x.com")
    = (selfA, Some (fsA, true))
    /\ switch_to journal_fits_255 selfA
         (perform_all selfA [Add "Tea" 1%float "Drinks" "2024-02-01"] fsA)
         (EmailKeyed "you@x.com")
       = (selfB, Some (fsB, true))
    /\ switch_to journal_fits_255 selfA fsA (EmailKeyed "you@x.com")
       = (selfB, Some (fsB0, true))
    /\ perform_all selfB [Add "Rent" 700%float "Home" "2024-02-02"] fsB
         !! selector_file example_manager (EmailKeyed "me@x.com")
       = perform_all selfA [Add "Tea" 1%float "Drinks" "2024-02-01"] fsA
           !! selector_file example_manager (EmailKeyed "me@x.com")
    /\ load_expenses stable_engine selfB
         (perform_all selfB [Add "Rent" 700%float "Home" "2024-02-02"] fsB)
       = load_expenses stable_engine selfB
           (perform_all selfB [Add "Rent" 700%float "Home" "2024-02-02"] fsB0)
    /\ get_categories stable_engine selfB
         (perform_all selfB [Add "Rent" 700%float "Home" "2024-02-02"] fsB)
       = get_categories stable_engine selfB
           (perform_all selfB [Add "Rent" 700%float "Home" "2024-02-02"] fsB0)
    /\ total_expenses selfB
         (perform_all selfB [Add "Rent" 700%float "Home" "2024-02-02"] fsB)
       = total_expenses selfB
           (perform_all selfB [Add "Rent" 700%float "Home" "2024-02-02"] fsB0)
    /\ expenses_by_category stable_engine selfB
         (perform_all selfB [Add "Rent" 700%float "Home" "2024-02-02"] fsB)
       = expenses_by_category stable_engine selfB
           (perform_all selfB [Add "Rent" 700%float "Home" "2024-02-02"] fsB0)
    /\ expenses_by_month stable_engine selfB
         (perform_all selfB [Add "Rent" 700%float "Home" "2024-02-02"] fsB)
         2026 (Some 2024)
       = expenses_by_month stable_engine selfB
           (perform_all selfB [Add "Rent" 700%float "Home" "2024-02-02"] fsB0)
           2026 (Some 2024)
    /\ switch_to journal_fits_255 selfB
         (perform_all selfB [Add "Rent" 700%float "Home" "2024-02-02"] fsB)
         (EmailKeyed "me@x.com")
       = (selfA', Some (fsA', true))
    /\ connect selfA' fsA'
       = connect selfA (perform_all selfA [Add "Tea" 1%float "Drinks" "2024-02-01"] fsA)
    /\ is_Some (connect selfA' fsA')
    /\ (local_db_file example_manager = "expenses.db" ->
        forall a, selector_file example_manager Local
                  <> selector_file example_manager (EmailKeyed a))
    /\ (forall a b,
          selector_file example_manager (EmailKeyed a)
          = selector_file example_manager (EmailKeyed b)
          <-> sanitize_email (Some a) = sanitize_email (Some b)).
Proof.
  apply (switching_isolates_datasets journal_fits_255 stable_engine example_manager
           example_fs (EmailKeyed "me@x.com") (EmailKeyed "you@x.com")
           [Add "Tea" 1%float "Drinks" "2024-02-01"]
           [Add "Rent" 700%float "Home" "2024-02-02"] 2026 (Some 2024)).
  - vm_compute. discriminate.
  - reflexivity.
  - reflexivity.
Defined.

(** C8, as stated, fails: the addresses [a.b@x.com] and [a_b@x.com] are
    two selectors, and both sanitize to [a_b_x_com], so they name one
    backing file; the expense added under the first is listed under the
    second. *)
Lemma distinct_selectors_share_a_dataset :
  EmailKeyed "a.b@x.com" <> EmailKeyed "a_b@x.com"
  /\ match switch_to journal_fits_255 example_manager example_fs
             (EmailKeyed "a.b@x.com") with
     | (selfA, Some (fsA, _)) =>
         match switch_to journal_fits_255 selfA
                 (perform_all selfA [Add "Coffee" 3.5%float "Food" "2024-01-05"] fsA)
                 (EmailKeyed "a_b@x.com") with
         | (selfB, Some (fsB, _)) =>
             load_expenses stable_engine selfB fsB
             = Some [Expense 1 "Coffee" 3.5%float "Food" "2024-01-05"]
             /\ current_db_file selfA = Some "expenses_a_b_x_com.db"
             /\ current_db_file selfB = Some "expenses_a_b_x_com.db"
         | (_, None) => False
         end
     | (_, None) => False
     end.
Proof.
  split; [discriminate|].
  vm_compute. split_and!; reflexivity.
Qed.

(** ** C9: the temporary artifact of an email backup *)

Lemma export_to_json_writes (ob : sorter) (self : DatabaseManager)
    (fs : gmap string database) (docs : gmap string (list expense))
    (filename f : string) (db : database) :
  current_db_file self = Some f -> fs !! f = Some db ->
  export_to_json ob self fs docs filename true
  = (<[filename := ob expense date_desc (expenses db)]> docs, true).
Proof.
  intros Hf Hdb. unfold export_to_json, load_expenses.
  by rewrite (connect_Some _ _ _ _ Hf Hdb).
Qed.

(** When the send succeeds the artifact is removed. *)
Lemma email_backup_sent_removes_artifact (ob : sorter) (self : DatabaseManager)
    (fs : gmap string database) (docs : gmap string (list expense))
    (user_email : string) (recipient_email : option string) (timestamp f : string)
    (db : database) :
  current_db_file self = Some f -> fs !! f = Some db ->
  exists docs' msg,
    email_backup ob self fs docs user_email recipient_email timestamp true Sent
    = (docs', Some msg, true)
    /\ docs' !! ("expense_backup_" +:+ timestamp +:+ ".json") = None.
Proof.
  intros Hf Hdb. unfold email_backup.
  rewrite (export_to_json_writes _ _ _ _ _ _ _ Hf Hdb). cbn [fst].
  rewrite lookup_insert_eq. eexists _, _. split; [reflexivity|].
  apply lookup_delete_eq.
Qed.

(** When the session fails, [os.remove] is never reached: the handler
    returns [False] and the artifact stays on disk. *)
Lemma email_backup_failure_keeps_artifact (ob : sorter) (self : DatabaseManager)
    (fs : gmap string database) (docs : gmap string (list expense))
    (user_email : string) (recipient_email : option string) (timestamp f : string)
    (db : database) (smtp : smtp_result) :
  current_db_file self = Some f -> fs !! f = Some db -> smtp <> Sent ->
  exists docs',
    email_backup ob self fs docs user_email recipient_email timestamp true smtp
    = (docs', None, false)
    /\ docs' !! ("expense_backup_" +:+ timestamp +:+ ".json")
       = Some (ob expense date_desc (expenses db)).
Proof.
  intros Hf Hdb Hsmtp. unfold email_backup.
  rewrite (export_to_json_writes _ _ _ _ _ _ _ Hf Hdb). cbn [fst].
  rewrite lookup_insert_eq.
  destruct smtp; [done| |]; (eexists; split; [reflexivity|apply lookup_insert_eq]).
Qed.

(** C9 fails on the code. On the example dataset, with no JSON document on
    disk before the call and a session that ends in an authentication
    error, [email_backup] returns [False], sends nothing, and leaves
    [expense_backup_20260101_000000.json] on disk. *)
Theorem email_backup_auth_failure_leaves_artifact :
  let '(docs', sent, returned) :=
    email_backup stable_engine example_manager example_fs ∅
      "me@x.com" None "20260101_000000" true AuthenticationError in
  returned = false
  /\ sent = None
  /\ docs' !! "expense_backup_20260101_000000.json"
     = Some [Expense 2 "Bus" 2%float "Transport" "2024-01-06";
             Expense 1 "Coffee" 3.5%float "Food" "2024-01-05"].
Proof. vm_compute. split_and!; reflexivity. Qed.

(** * Further properties of the data-access layer *)

(** ** Integrity is kept by every statement *)

Lemma update_where_ids (expense_id : Z) (description : string) (amount : float)
    (cat date : string) (db : database) :
  e_id <$> expenses (update_where_id expense_id description amount cat date db)
  = e_id <$> expenses db.
Proof.
  cbn [expenses update_where_id]. rewrite <- list_fmap_compose.
  apply list_fmap_ext. intros i e _. simpl. by case_decide.
Qed.

Lemma db_ok_empty : db_ok empty_database.
Proof.
  unfold db_ok, empty_database; simpl.
  split_and!; try constructor.
Qed.

Lemma db_ok_insert_or_ignore (name : string) (db : database) :
  db_ok db -> db_ok (insert_or_ignore_category name db).
Proof.
  intros (H1 & H2 & H3 & H4 & H5 & H6).
  pose proof (next_rowid_above_seq (seq_categories db) (c_id <$> categories db))
    as Hseq.
  unfold db_ok, insert_or_ignore_category;
    cbn [expenses categories seq_expenses seq_categories].
  case_decide as Hin.
  - split_and!; try done.
    eapply Forall_impl; [exact H4|]. intros i Hi. cbv beta in *. lia.
  - rewrite !fmap_app. cbn [fmap list_fmap c_id c_name].
    split_and!; try done.
    + apply StronglySorted_app_2; [|done|repeat constructor].
      intros i j Hi ->%list_elem_of_singleton. by apply next_rowid_fresh.
    + apply Forall_app. split.
      * eapply Forall_impl; [exact H4|]. intros i Hi. cbv beta in *. lia.
      * repeat constructor. lia.
    + apply NoDup_app. split_and!; [done| |apply NoDup_singleton].
      intros x Hx ->%list_elem_of_singleton. done.
    + eapply Forall_impl; [exact H6|]. intros e He. cbv beta in *.
      apply elem_of_app. by left.
Qed.

Lemma db_ok_insert_expense (description : string) (amount : float) (cat date : string)
    (db : database) :
  db_ok db -> cat ∈ c_name <$> categories db ->
  db_ok (insert_expense description amount cat date db).
Proof.
  intros (H1 & H2 & H3 & H4 & H5 & H6) Hcat.
  unfold db_ok, insert_expense; cbn [expenses categories seq_expenses seq_categories].
  rewrite !fmap_app. cbn [fmap list_fmap e_id].
  split_and!; try done.
  - apply StronglySorted_app_2; [|done|repeat constructor].
    intros i j Hi ->%list_elem_of_singleton. by apply next_rowid_fresh.
  - apply Forall_app. split.
    + eapply Forall_impl; [exact H2|]. intros i Hi. cbv beta in *.
      pose proof (next_rowid_above_seq (seq_expenses db) (e_id <$> expenses db)).
      lia.
    + repeat constructor. lia.
  - apply Forall_app. split; [done|]. by repeat constructor.
Qed.

Lemma db_ok_delete (expense_id : Z) (db : database) :
  db_ok db -> db_ok (delete_where_id expense_id db).
Proof.
  intros (H1 & H2 & H3 & H4 & H5 & H6).
  unfold db_ok, delete_where_id; cbn [expenses categories seq_expenses seq_categories].
  split_and!; try done.
  - by apply StronglySorted_filter_fmap.
  - apply Forall_fmap, Forall_forall. intros e [_ He]%list_elem_of_filter.
    rewrite Forall_fmap, Forall_forall in H2. exact (H2 e He).
  - apply Forall_forall. intros e [_ He]%list_elem_of_filter.
    rewrite Forall_forall in H6. by apply H6.
Qed.

Lemma db_ok_update (expense_id : Z) (description : string) (amount : float)
    (cat date : string) (db : database) :
  db_ok db -> cat ∈ c_name <$> categories db ->
  db_ok (update_where_id expense_id description amount cat date db).
Proof.
  intros (H1 & H2 & H3 & H4 & H5 & H6) Hcat.
  unfold db_ok. rewrite update_where_ids.
  cbn [expenses categories seq_expenses seq_categories update_where_id].
  split_and!; try done.
  apply Forall_fmap, Forall_forall. intros e He. simpl.
  case_decide; [done|]. rewrite Forall_forall in H6. by apply H6.
Qed.

(** ** Sessions keep integrity, and never lose the current file *)

Lemma fs_ok_insert (fs : gmap string database) (f : string) (db : database) :
  fs_ok fs -> db_ok db -> fs_ok (<[f := db]> fs).
Proof.
  intros Hfs Hdb g db'. destruct (decide (f = g)) as [->|Hne].
  - rewrite lookup_insert_eq. by intros [= <-].
  - rewrite lookup_insert_ne by done. apply Hfs.
Qed.

Lemma perform_ok (self : DatabaseManager) (fs : gmap string database) (r : request) :
  fs_ok fs -> fs_ok (perform self fs r).1.
Proof.
  intros Hfs.
  destruct r as [d a c dt|i d a c dt|i]; simpl;
    unfold add_expense, update_expense, delete_expense;
    (destruct (connect self fs) as [[f db]|] eqn:Hc; [|done]);
    try (destruct (fits_int64 i); [|done]);
    apply connect_inv in Hc as [_ Hdb]; apply Hfs in Hdb;
    cbn [fst]; apply fs_ok_insert; try done.
  - apply db_ok_insert_expense; [by apply db_ok_insert_or_ignore|].
    apply insert_or_ignore_names.
  - apply db_ok_update; [by apply db_ok_insert_or_ignore|].
    apply insert_or_ignore_names.
  - by apply db_ok_delete.
Qed.

Lemma create_table_ok (os_accepts : string -> bool) (self : DatabaseManager)
    (fs fs' : gmap string database) :
  fs_ok fs -> create_table os_accepts self fs = Some fs' ->
  fs_ok fs' /\ is_Some (connect self fs').
Proof.
  unfold create_table, connect. intros Hfs.
  destruct (current_db_file self) as [f|]; [|done].
  destruct (os_accepts f); [|done].
  destruct (fs !! f) as [db|] eqn:Hf; intros [= <-].
  - split; [done|]. rewrite Hf. eauto.
  - split; [apply fs_ok_insert; [done|apply db_ok_empty]|].
    rewrite lookup_insert_eq. eauto.
Qed.

Lemma step_ok (os_accepts : string -> bool)
    (st : DatabaseManager * gmap string database) (a : action) :
  fs_ok st.2 -> fs_ok (step os_accepts st a).2.
Proof.
  destruct st as [self fs]. intros Hfs. destruct a as [r|sel]; simpl in *.
  - by apply perform_ok.
  - destruct sel as [|a]; simpl; unfold switch_database;
      match goal with
      | |- context [create_table os_accepts ?m fs] =>
          destruct (create_table os_accepts m fs) as [fs'|] eqn:Hct; simpl; [|done];
          by apply (create_table_ok os_accepts m) in Hct as [? _]
      end.
Qed.

Lemma run_ok (os_accepts : string -> bool) (acts : list action)
    (st : DatabaseManager * gmap string database) :
  fs_ok st.2 -> fs_ok (run os_accepts acts st).2.
Proof.
  revert st. induction acts as [|a acts IH]; intros st Hfs; [done|].
  exact (IH (step os_accepts st a) (step_ok os_accepts st a Hfs)).
Qed.

Lemma init_ok (os_accepts : string -> bool) (is_local : bool) (email : option string)
    (fs fs0 : gmap string database) (self : DatabaseManager) :
  fs_ok fs -> __init__ os_accepts is_local email fs = Some (self, fs0) ->
  fs_ok fs0 /\ is_Some (connect self fs0).
Proof.
  unfold __init__. intros Hfs.
  match goal with
  | |- context [create_table os_accepts ?m fs] =>
      destruct (create_table os_accepts m fs) as [fs'|] eqn:Hct; [|done];
      intros [= <- <-]; by apply (create_table_ok os_accepts m) in Hct
  end.
Qed.

(** X1. On a disk whose backing files satisfy the integrity constraints
    (the empty disk does), a manager that was constructed, followed by
    any sequence of requests and switches, whether they succeed or fail,
    leaves every backing file satisfying them: in each file the ids of both tables ascend in table
    order and are distinct, none exceeds its AUTOINCREMENT counter,
    category names are distinct, and the category of every expense is
    listed in the categories table. *)
Theorem session_keeps_integrity (os_accepts : string -> bool) (is_local : bool)
    (email : option string) (fs fs0 : gmap string database)
    (self : DatabaseManager) (acts : list action) :
  fs_ok fs -> __init__ os_accepts is_local email fs = Some (self, fs0) ->
  forall f db, (run os_accepts acts (self, fs0)).2 !! f = Some db ->
    StronglySorted Z.lt (e_id <$> expenses db)
    /\ NoDup (e_id <$> expenses db)
    /\ Forall (fun i => i <= seq_expenses db) (e_id <$> expenses db)
    /\ StronglySorted Z.lt (c_id <$> categories db)
    /\ Forall (fun i => i <= seq_categories db) (c_id <$> categories db)
    /\ NoDup (c_name <$> categories db)
    /\ Forall (fun e => e_category e ∈ c_name <$> categories db) (expenses db).
Proof.
  intros Hfs Hinit f db Hdb.
  destruct (init_ok _ _ _ _ _ _ Hfs Hinit) as [Hfs0 _].
  pose proof (run_ok os_accepts acts (self, fs0) Hfs0) as Hok.
  destruct (Hok f db Hdb) as (H1 & H2 & H3 & H4 & H5 & H6).
  split_and!; try done.
  clear -H1. induction H1 as [|i l Hs IH Hall]; [constructor|].
  constructor; [|done]. intros Hin. rewrite Forall_forall in Hall.
  specialize (Hall i Hin). lia.
Qed.

Lemma fs_ok_empty : fs_ok ∅.
Proof. intros f db H. by rewrite lookup_empty in H. Qed.

Lemma session_keeps_integrity_witness :
  StronglySorted Z.lt (e_id <$> expenses example_db)
  /\ NoDup (e_id <$> expenses example_db)
  /\ Forall (fun i => i <= seq_expenses example_db) (e_id <$> expenses example_db)
  /\ StronglySorted Z.lt (c_id <$> categories example_db)
  /\ Forall (fun i => i <= seq_categories example_db) (c_id <$> categories example_db)
  /\ NoDup (c_name <$> categories example_db)
  /\ Forall (fun e => e_category e ∈ c_name <$> categories example_db)
       (expenses example_db).
Proof.
  apply (session_keeps_integrity journal_fits_255 true None ∅
           {[ "expenses.db" := empty_database ]}
           example_manager example_session fs_ok_empty eq_refl
           "expenses.db" example_db).
  reflexivity.
Defined.


(** ** Construction, and what a constructed manager can rely on *)

Lemma constructor_creates_or_keeps_aux (os_accepts : string -> bool)
    (is_local : bool) (email : option string) (fs : gmap string database) :
  (__init__ os_accepts is_local email fs = None
   <-> (is_local = false /\ truthy_str email = false)
       \/ os_accepts (if is_local then "expenses.db" else email_file_name email)
          = false)
  /\ forall self fs0, __init__ os_accepts is_local email fs = Some (self, fs0) ->
       exists f,
         current_db_file self = Some f
         /\ f = (if is_local then "expenses.db" else email_file_name email)
         /\ os_accepts f = true
         /\ fs0 !! f = Some (default empty_database (fs !! f))
         /\ (forall g, g <> f -> fs0 !! g = fs !! g)
         /\ create_table os_accepts self fs0 = Some fs0.
Proof.
  assert (Hgen : forall m f, current_db_file m = Some f -> os_accepts f = true ->
            exists fs0, create_table os_accepts m fs = Some fs0
              /\ fs0 !! f = Some (default empty_database (fs !! f))
              /\ (forall g, g <> f -> fs0 !! g = fs !! g)
              /\ create_table os_accepts m fs0 = Some fs0).
  { intros m f Hf Hos. unfold create_table. rewrite Hf, Hos.
    destruct (fs !! f) as [db|] eqn:Hdb.
    - exists fs. rewrite Hdb. by split_and!.
    - eexists. split; [reflexivity|]. rewrite lookup_insert_eq.
      split_and!; [done| |done]. intros g Hg. by apply lookup_insert_ne. }
  unfold __init__.
  destruct is_local; [|destruct (truthy_str email) eqn:Ht].
  - destruct (os_accepts "expenses.db") eqn:Hos.
    + edestruct Hgen as (fs1 & -> & H1 & H2 & H3); [reflexivity|exact Hos|].
      split; [split; [done|by intros [[? _]|?]]|].
      intros self fs0 [= <- <-]. eexists. split_and!; try done.
    + erewrite create_table_refused; [|reflexivity|exact Hos].
      split; [split; [by right|done]|]. by intros self fs0.
  - destruct (os_accepts (email_file_name email)) eqn:Hos.
    + edestruct Hgen as (fs1 & -> & H1 & H2 & H3); [reflexivity|exact Hos|].
      split; [split; [done|by intros [[_ ?]|?]]|].
      intros self fs0 [= <- <-]. eexists. split_and!; try done.
    + erewrite create_table_refused; [|reflexivity|exact Hos].
      split; [split; [by right|done]|]. by intros self fs0.
  - unfold create_table. cbn [current_db_file].
    split; [split; [by left|done]|]. by intros self fs0.
Qed.

(** X2. The constructor raises exactly when it is asked for the
    email-keyed store without an email ([None] or the empty text), so
    that there is no file name to connect to, or when the operating
    system refuses the file name. In every other case it succeeds; it
    creates the current file with two empty tables if the file is
    missing, leaves it as it is if it exists, and touches no other file;
    and running [create_table] again changes nothing. *)
Theorem constructor_creates_or_keeps (os_accepts : string -> bool)
    (is_local : bool) (email : option string) (fs : gmap string database) :
  (__init__ os_accepts is_local email fs = None
   <-> (is_local = false /\ truthy_str email = false)
       \/ os_accepts (if is_local then "expenses.db" else email_file_name email)
          = false)
  /\ forall self fs0, __init__ os_accepts is_local email fs = Some (self, fs0) ->
       exists f,
         current_db_file self = Some f
         /\ f = (if is_local then "expenses.db" else email_file_name email)
         /\ os_accepts f = true
         /\ fs0 !! f = Some (default empty_database (fs !! f))
         /\ (forall g, g <> f -> fs0 !! g = fs !! g)
         /\ create_table os_accepts self fs0 = Some fs0.
Proof. exact (constructor_creates_or_keeps_aux os_accepts is_local email fs). Qed.

Lemma constructor_creates_or_keeps_witness :
  exists f,
    current_db_file example_manager = Some f
    /\ f = "expenses.db"
    /\ journal_fits_255 f = true
    /\ ({[ "expenses.db" := empty_database ]} : gmap string database) !! f
       = Some (default empty_database ((∅ : gmap string database) !! f))
    /\ (forall g, g <> f ->
          ({[ "expenses.db" := empty_database ]} : gmap string database) !! g
          = (∅ : gmap string database) !! g)
    /\ create_table journal_fits_255 example_manager
         {[ "expenses.db" := empty_database ]}
       = Some {[ "expenses.db" := empty_database ]}.
Proof.
  apply (proj2 (constructor_creates_or_keeps journal_fits_255 true None ∅)).
  reflexivity.
Defined.

(** A request, and a switch to a name the operating system accepts, leave
    the manager with a file to connect to. *)
Lemma step_connected (os_accepts : string -> bool)
    (st : DatabaseManager * gmap string database) (a : action) :
  is_Some (connect st.1 st.2) -> switch_accepted os_accepts st.1 a ->
  is_Some (connect (step os_accepts st a).1 (step os_accepts st a).2)
  /\ local_db_file (step os_accepts st a).1 = local_db_file st.1.
Proof.
  destruct st as [self fs]. intros Hc Hacc. destruct a as [r|sel]; simpl in *.
  - split; [|done].
    destruct Hc as [[f db] Hc]. apply connect_inv in Hc as [Hf Hdb].
    destruct (perform_present self fs r f) as [db' Hdb']; [by eauto|].
    exists (f, db'). by apply connect_Some.
  - destruct (switch_to_Some os_accepts self fs sel Hacc)
      as (self' & fs' & -> & Hf & Hl & _ & Hdb).
    split; [|done]. eexists (_, _). by apply connect_Some.
Qed.

Lemma switch_accepted_local (os_accepts : string -> bool)
    (self1 self2 : DatabaseManager) (a : action) :
  local_db_file self1 = local_db_file self2 ->
  switch_accepted os_accepts self1 a -> switch_accepted os_accepts self2 a.
Proof.
  intros Hl. destruct a as [r|sel]; [done|]. simpl.
  by rewrite (selector_file_local self1 self2 sel Hl).
Qed.

Lemma run_connected (os_accepts : string -> bool) (self : DatabaseManager)
    (acts : list action) (st : DatabaseManager * gmap string database) :
  local_db_file st.1 = local_db_file self ->
  is_Some (connect st.1 st.2) ->
  Forall (switch_accepted os_accepts self) acts ->
  is_Some (connect (run os_accepts acts st).1 (run os_accepts acts st).2).
Proof.
  revert st. induction acts as [|a acts IH]; intros st Hl Hc Hall; [done|].
  apply Forall_cons in Hall as [Ha Hall].
  destruct (step_connected os_accepts st a Hc) as [Hc' Hl'].
  { by apply (switch_accepted_local os_accepts self). }
  apply (IH (step os_accepts st a)); [congruence|done|done].
Qed.

Lemma init_connected (os_accepts : string -> bool) (is_local : bool)
    (email : option string) (fs fs0 : gmap string database) (self : DatabaseManager) :
  __init__ os_accepts is_local email fs = Some (self, fs0) ->
  is_Some (connect self fs0).
Proof.
  intros Hinit.
  destruct (proj2 (constructor_creates_or_keeps_aux os_accepts is_local email fs)
              self fs0 Hinit) as (f & Hf & _ & _ & Hdb & _).
  eexists (_, _). by apply connect_Some.
Qed.

(** X3. Once a manager has been constructed, and as long as every switch
    since went to a name the operating system accepts, no call fails for
    want of its backing file: after any such sequence of requests and
    switches, [add_expense] returns [True], [update_expense] and
    [delete_expense] return [True] exactly when their id fits SQLite's
    INTEGER, and every query ([load_expenses], [get_categories],
    [total_expenses], [expenses_by_category], [expenses_by_month])
    returns a result instead of raising. *)
Theorem constructed_manager_stays_connected (os_accepts : string -> bool)
    (ob : sorter) (is_local : bool) (email : option string)
    (fs fs0 : gmap string database) (self : DatabaseManager)
    (acts : list action) (r : request) (current_year : Z) (year : option Z) :
  __init__ os_accepts is_local email fs = Some (self, fs0) ->
  Forall (switch_accepted os_accepts self) acts ->
  (perform (run os_accepts acts (self, fs0)).1 (run os_accepts acts (self, fs0)).2 r).2
  = request_fits r
  /\ is_Some (load_expenses ob (run os_accepts acts (self, fs0)).1
                (run os_accepts acts (self, fs0)).2)
  /\ is_Some (get_categories ob (run os_accepts acts (self, fs0)).1
                (run os_accepts acts (self, fs0)).2)
  /\ is_Some (total_expenses (run os_accepts acts (self, fs0)).1
                (run os_accepts acts (self, fs0)).2)
  /\ is_Some (expenses_by_category ob (run os_accepts acts (self, fs0)).1
                (run os_accepts acts (self, fs0)).2)
  /\ is_Some (expenses_by_month ob (run os_accepts acts (self, fs0)).1
                (run os_accepts acts (self, fs0)).2 current_year year).
Proof.
  intros Hinit Hall.
  destruct (run_connected os_accepts self acts (self, fs0) eq_refl
              (init_connected _ _ _ _ _ _ Hinit) Hall) as [[f db] Hc].
  destruct (run os_accepts acts (self, fs0)) as [m fs1]. simpl in *.
  unfold load_expenses, get_categories, total_expenses, expenses_by_category,
    expenses_by_month.
  rewrite Hc. split_and!; try by eexists.
  destruct r as [d a c dt|i d a c dt|i]; simpl;
    unfold add_expense, update_expense, delete_expense; rewrite Hc;
    try done; by destruct (fits_int64 i).
Qed.

Lemma constructed_manager_stays_connected_witness :
  (perform
     (run journal_fits_255 example_switch_session
        (example_manager, {[ "expenses.db" := empty_database ]})).1
     (run journal_fits_255 example_switch_session
        (example_manager, {[ "expenses.db" := empty_database ]})).2
     (Delete 7)).2 = request_fits (Delete 7)
  /\ is_Some (load_expenses stable_engine
       (run journal_fits_255 example_switch_session
          (example_manager, {[ "expenses.db" := empty_database ]})).1
       (run journal_fits_255 example_switch_session
          (example_manager, {[ "expenses.db" := empty_database ]})).2)
  /\ is_Some (get_categories stable_engine
       (run journal_fits_255 example_switch_session
          (example_manager, {[ "expenses.db" := empty_database ]})).1
       (run journal_fits_255 example_switch_session
          (example_manager, {[ "expenses.db" := empty_database ]})).2)
  /\ is_Some (total_expenses
       (run journal_fits_255 example_switch_session
          (example_manager, {[ "expenses.db" := empty_database ]})).1
       (run journal_fits_255 example_switch_session
          (example_manager, {[ "expenses.db" := empty_database ]})).2)
  /\ is_Some (expenses_by_category stable_engine
       (run journal_fits_255 example_switch_session
          (example_manager, {[ "expenses.db" := empty_database ]})).1
       (run journal_fits_255 example_switch_session
          (example_manager, {[ "expenses.db" := empty_database ]})).2)
  /\ is_Some (expenses_by_month stable_engine
       (run journal_fits_255 example_switch_session
          (example_manager, {[ "expenses.db" := empty_database ]})).1
       (run journal_fits_255 example_switch_session
          (example_manager, {[ "expenses.db" := empty_database ]})).2
       2026 (Some 2024)).
Proof.
  apply (constructed_manager_stays_connected journal_fits_255 stable_engine true None ∅
           {[ "expenses.db" := empty_database ]} example_manager
           example_switch_session (Delete 7) 2026 (Some 2024)).
  - reflexivity.
  - repeat constructor.
Defined.



(** ** Ids are not given out twice *)

Lemma retired_insert_or_ignore (i : Z) (name : string) (db : database) :
  retired i db -> retired i (insert_or_ignore_category name db).
Proof.
  unfold retired. by destruct (insert_or_ignore_expenses name db) as [-> ->].
Qed.

Lemma retired_insert_expense (i : Z) (description : string) (amount : float)
    (cat date : string) (db : database) :
  retired i db -> retired i (insert_expense description amount cat date db).
Proof.
  intros [Hle Hnin]. unfold retired, insert_expense; cbn [expenses seq_expenses].
  pose proof (next_rowid_above_seq (seq_expenses db) (e_id <$> expenses db)) as Hnext.
  split; [lia|]. rewrite fmap_app. intros [Hin|Hin]%elem_of_app; [done|].
  apply list_elem_of_singleton in Hin. simpl in Hin. lia.
Qed.

Lemma retired_update (i expense_id : Z) (description : string) (amount : float)
    (cat date : string) (db : database) :
  retired i db -> retired i (update_where_id expense_id description amount cat date db).
Proof. unfold retired. by rewrite update_where_ids. Qed.

Lemma retired_delete (i expense_id : Z) (db : database) :
  retired i db -> retired i (delete_where_id expense_id db).
Proof.
  intros [Hle Hnin]. split; [done|]. cbn [expenses delete_where_id].
  intros (e & -> & [_ He]%list_elem_of_filter)%list_elem_of_fmap.
  apply Hnin, list_elem_of_fmap. by exists e.
Qed.

Lemma perform_retired (i : Z) (g : string) (self : DatabaseManager)
    (fs : gmap string database) (r : request) :
  (exists db, fs !! g = Some db /\ retired i db) ->
  exists db', (perform self fs r).1 !! g = Some db' /\ retired i db'.
Proof.
  intros (db & Hdb & Hret).
  destruct (connect self fs) as [[f dbf]|] eqn:Hc.
  - apply connect_inv in Hc as Hc'. destruct Hc' as [Hf Hdbf].
    destruct (decide (f = g)) as [->|Hne].
    + assert (dbf = db) as -> by congruence.
      destruct r as [d a c dt|j d a c dt|j]; simpl;
        unfold add_expense, update_expense, delete_expense; rewrite Hc;
        try (destruct (fits_int64 j); [|by exists db]);
        cbn [fst]; rewrite lookup_insert_eq; eexists; (split; [done|]).
      * by apply retired_insert_expense, retired_insert_or_ignore.
      * by apply retired_update, retired_insert_or_ignore.
      * by apply retired_delete.
    + exists db. split; [|done]. rewrite perform_frame; [done|congruence].
  - exists db. split; [|done].
    destruct r; simpl; unfold add_expense, update_expense, delete_expense;
      by rewrite Hc.
Qed.

Lemma create_table_keeps (os_accepts : string -> bool) (self : DatabaseManager)
    (fs fs' : gmap string database) (g : string) (db : database) :
  create_table os_accepts self fs = Some fs' -> fs !! g = Some db ->
  fs' !! g = Some db.
Proof.
  unfold create_table. destruct (current_db_file self) as [f|]; [|done].
  destruct (os_accepts f); [|done].
  destruct (fs !! f) as [dbf|] eqn:Hf; intros [= <-] Hg; [done|].
  rewrite lookup_insert_ne; [done|]. intros ->. congruence.
Qed.

Lemma step_keeps_file (os_accepts : string -> bool) (g : string) (db : database)
    (self : DatabaseManager) (fs : gmap string database) (sel : selector) :
  fs !! g = Some db -> (step os_accepts (self, fs) (Switch sel)).2 !! g = Some db.
Proof.
  intros Hg. destruct sel as [|a]; simpl; unfold switch_database;
    match goal with
    | |- context [create_table os_accepts ?m fs] =>
        destruct (create_table os_accepts m fs) as [fs'|] eqn:Hct; simpl; [|done];
        by apply (create_table_keeps _ _ _ _ g db) in Hct
    end.
Qed.

Lemma step_retired (os_accepts : string -> bool) (i : Z) (g : string)
    (st : DatabaseManager * gmap string database) (a : action) :
  (exists db, st.2 !! g = Some db /\ retired i db) ->
  exists db', (step os_accepts st a).2 !! g = Some db' /\ retired i db'.
Proof.
  destruct st as [self fs]. intros H. destruct a as [r|sel].
  - by apply perform_retired.
  - destruct H as (db & Hdb & Hret). exists db. split; [|done].
    by apply step_keeps_file.
Qed.

Lemma run_retired (os_accepts : string -> bool) (i : Z) (g : string)
    (acts : list action) (st : DatabaseManager * gmap string database) :
  (exists db, st.2 !! g = Some db /\ retired i db) ->
  exists db', (run os_accepts acts st).2 !! g = Some db' /\ retired i db'.
Proof.
  revert st. induction acts as [|a acts IH]; intros st H; [done|].
  exact (IH (step os_accepts st a) (step_retired os_accepts i g st a H)).
Qed.

(** X4. An id is never given out twice. On a dataset that satisfies the
    integrity constraints, once the row with a given id has been deleted
    (the id fits SQLite's INTEGER, as the id of a stored row does), no
    later sequence of requests and switches brings a row with that id
    back into the dataset: rows added later get larger ids. *)
Theorem deleted_id_never_reused (os_accepts : string -> bool)
    (self : DatabaseManager) (fs : gmap string database)
    (f : string) (db : database) (i : Z) (acts : list action) :
  current_db_file self = Some f -> fs !! f = Some db -> db_ok db ->
  i ∈ e_id <$> expenses db -> - 2 ^ 63 <= i < 2 ^ 63 ->
  exists db',
    (run os_accepts acts (self, (delete_expense self fs i).1)).2 !! f = Some db'
    /\ (i ∉ e_id <$> expenses db')
    /\ forall e, e ∈ expenses db' -> e_id e ∉ e_id <$> expenses db -> i < e_id e.
Proof.
  intros Hf Hdb (H1 & H2 & _) Hin Hfit%fits_int64_true.
  assert (Hle : i <= seq_expenses db).
  { rewrite Forall_forall in H2. by apply H2. }
  unfold delete_expense. rewrite (connect_Some _ _ _ _ Hf Hdb), Hfit. cbn [fst].
  set (fs1 := <[f := delete_where_id i db]> fs).
  destruct (run_retired os_accepts i f acts (self, fs1)) as (db' & Hdb' & Hret).
  { eexists. split; [apply lookup_insert_eq|]. split; [done|].
    apply delete_where_removes. }
  exists db'. split_and!; [done|apply Hret|].
  intros e He Hnew.
  (* every id at or below the old counter that is not an old id is retired *)
  destruct (decide (e_id e <= seq_expenses db)) as [Hold|Hnew']; [|lia].
  exfalso.
  destruct (run_retired os_accepts (e_id e) f acts (self, fs1))
    as (db'' & Hdb'' & Hret'').
  { eexists. split; [apply lookup_insert_eq|]. split; [done|].
    cbn [expenses delete_where_id].
    intros (e0 & Heq & [_ He0]%list_elem_of_filter)%list_elem_of_fmap.
    apply Hnew, list_elem_of_fmap. by exists e0. }
  assert (db'' = db') as -> by congruence.
  apply Hret'', list_elem_of_fmap. by exists e.
Qed.

Lemma db_ok_example : db_ok example_db.
Proof.
  unfold example_db.
  repeat first [ apply db_ok_insert_expense; [|apply insert_or_ignore_names]
               | apply db_ok_insert_or_ignore
               | apply db_ok_empty ].
Qed.

Lemma deleted_id_never_reused_witness :
  exists db',
    (run journal_fits_255 [Request (Add "Tea" 1%float "Drinks" "2024-02-01")]
         (example_manager, (delete_expense example_manager example_fs 2).1)).2
      !! "expenses.db" = Some db'
    /\ (2 ∉ e_id <$> expenses db')
    /\ forall e, e ∈ expenses db' -> e_id e ∉ e_id <$> expenses example_db -> 2 < e_id e.
Proof.
  apply (deleted_id_never_reused journal_fits_255 example_manager example_fs
           "expenses.db" example_db 2
           [Request (Add "Tea" 1%float "Drinks" "2024-02-01")]).
  - reflexivity.
  - reflexivity.
  - exact db_ok_example.
  - vm_compute. apply list_elem_of_further, list_elem_of_here.
  - split; [discriminate|reflexivity].
Defined.

(** ** Adding, updating and deleting, as a listing shows them *)





Lemma split_off_row (l : list expense) (e : expense) :
  NoDup (e_id <$> l) -> e ∈ l ->
  l ≡ₚ e :: filter (fun x => e_id x <> e_id e) l.
Proof.
  induction l as [|x l IH]; [by intros _ ?%elem_of_nil|].
  rewrite fmap_cons. intros [Hx Hnd]%NoDup_cons [->|Hin]%elem_of_cons.
  - rewrite filter_cons_False by (intros H; by apply H).
    constructor. clear IH. induction l as [|y l IH]; [done|].
    rewrite fmap_cons in Hx, Hnd. apply not_elem_of_cons in Hx as [Hne Hx].
    apply NoDup_cons in Hnd as [_ Hnd].
    rewrite filter_cons_True by congruence. constructor. by apply IH.
  - assert (e_id x <> e_id e).
    { intros Heq. apply Hx. rewrite Heq. apply list_elem_of_fmap. by exists e. }
    rewrite filter_cons_True by done.
    rewrite (IH Hnd Hin) at 1. apply Permutation_swap.
Qed.

(** X7. On a table whose ids are distinct, deleting the id of a row (an
    id that fits SQLite's INTEGER, as the id of a stored row does)
    returns [True] and removes that row and no other: the listing before
    is the listing after with that row put back, and the row is no longer
    listed. *)
Theorem delete_then_list (ob : sorter) (self : DatabaseManager)
    (fs : gmap string database) (f : string) (db : database) (e : expense) :
  order_by_contract ob ->
  current_db_file self = Some f -> fs !! f = Some db ->
  NoDup (e_id <$> expenses db) -> e ∈ expenses db ->
  - 2 ^ 63 <= e_id e < 2 ^ 63 ->
  exists (fs' : gmap string database) (out out' : list expense),
    delete_expense self fs (e_id e) = (fs', true)
    /\ load_expenses ob self fs = Some out
    /\ load_expenses ob self fs' = Some out'
    /\ out ≡ₚ e :: out'
    /\ (e ∉ out')
    /\ length out = S (length out').
Proof.
  intros Hob Hf Hdb Hnd He Hfit%fits_int64_true.
  destruct (load_expenses_contract ob self fs f db Hob Hf Hdb)
    as (out & Hout & Hperm & _).
  unfold delete_expense. rewrite (connect_Some _ _ _ _ Hf Hdb), Hfit.
  set (db' := delete_where_id (e_id e) db).
  set (fs' := <[f := db']> fs).
  assert (Hdb' : fs' !! f = Some db') by apply lookup_insert_eq.
  destruct (load_expenses_contract ob self fs' f db' Hob Hf Hdb')
    as (out' & Hout' & Hperm' & _).
  pose proof (split_off_row (expenses db) e Hnd He) as Hsplit.
  assert (Hout_split : out ≡ₚ e :: out') by (by rewrite Hperm, Hperm').
  exists fs', out, out'. split_and!; try done.
  - rewrite Hperm'. subst db'. cbn [expenses delete_where_id].
    intros [Hne _]%list_elem_of_filter. by apply Hne.
  - by rewrite Hout_split.
Qed.

Lemma delete_then_list_witness :
  exists (fs' : gmap string database) (out out' : list expense),
    delete_expense example_manager example_fs 2 = (fs', true)
    /\ load_expenses stable_engine example_manager example_fs = Some out
    /\ load_expenses stable_engine example_manager fs' = Some out'
    /\ out ≡ₚ Expense 2 "Bus" 2%float "Transport" "2024-01-06" :: out'
    /\ (Expense 2 "Bus" 2%float "Transport" "2024-01-06" ∉ out')
    /\ length out = S (length out').
Proof.
  apply (delete_then_list stable_engine example_manager example_fs
           "expenses.db" example_db
           (Expense 2 "Bus" 2%float "Transport" "2024-01-06")).
  - exact stable_engine_contract.
  - reflexivity.
  - reflexivity.
  - vm_compute. repeat constructor; intros H; repeat (inversion H as [|? ? ? H']; clear H; rename H' into H).
  - vm_compute. apply list_elem_of_further, list_elem_of_here.
  - split; [discriminate|reflexivity].
Defined.

(** ** The categories listing *)

Lemma string_leb_ne_ltb (a b : string) :
  String.leb a b = true -> a <> b -> String.ltb a b = true.
Proof.
  unfold String.leb, String.ltb. intros Hle Hne.
  destruct (String.compare a b) eqn:Hc; try done.
  by apply String.compare_eq_iff in Hc.
Qed.

#[local] Instance string_leb_antisym :
  AntiSymm (=) (fun a b : string => String.leb a b = true).
Proof. intros a b. apply String.leb_antisym. Qed.

(** X8. On a categories table whose names are distinct (the UNIQUE
    constraint), [get_categories] returns exactly the names of the table,
    each once, in strictly ascending order of the BINARY collation; the
    answer therefore does not depend on how the engine orders equal keys:
    every engine that meets the ORDER BY contract returns the same list. *)
Theorem get_categories_strictly_ascending (ob ob' : sorter) (self : DatabaseManager)
    (fs : gmap string database) (f : string) (db : database) :
  order_by_contract ob -> order_by_contract ob' ->
  current_db_file self = Some f -> fs !! f = Some db ->
  NoDup (c_name <$> categories db) ->
  exists names : list string,
    get_categories ob self fs = Some names
    /\ get_categories ob' self fs = Some names
    /\ (forall n, n ∈ names <-> n ∈ c_name <$> categories db)
    /\ length names = length (categories db)
    /\ StronglySorted (fun a b => String.ltb a b = true) names.
Proof.
  intros Hob Hob' Hf Hdb Hnd.
  destruct (get_categories_contract ob self fs f db Hob Hf Hdb)
    as (names & Hnames & Hperm & Hsorted).
  destruct (get_categories_contract ob' self fs f db Hob' Hf Hdb)
    as (names' & Hnames' & Hperm' & Hsorted').
  assert (names' = names) as ->.
  { apply (StronglySorted_unique (fun a b : string => String.leb a b = true));
      [done|done|]. by rewrite Hperm, Hperm'. }
  exists names. split_and!; try done.
  - intros n. by rewrite Hperm.
  - by rewrite Hperm, length_fmap.
  - apply (StronglySorted_strengthen (fun a b : string => String.leb a b = true));
      [done|by rewrite Hperm|].
    intros a b _ _ Hne Hle. by apply string_leb_ne_ltb.
Qed.

Lemma get_categories_strictly_ascending_witness :
  exists names : list string,
    get_categories stable_engine example_manager example_fs = Some names
    /\ get_categories stable_engine example_manager example_fs = Some names
    /\ (forall n, n ∈ names <-> n ∈ c_name <$> categories example_db)
    /\ length names = length (categories example_db)
    /\ StronglySorted (fun a b => String.ltb a b = true) names.
Proof.
  apply (get_categories_strictly_ascending stable_engine stable_engine
           example_manager example_fs "expenses.db" example_db).
  - exact stable_engine_contract.
  - exact stable_engine_contract.
  - reflexivity.
  - reflexivity.
  - apply db_ok_example.
Defined.

Lemma step_keeps_category (os_accepts : string -> bool) (n : string) (g : string)
    (st : DatabaseManager * gmap string database) (a : action) :
  (exists db, st.2 !! g = Some db /\ n ∈ c_name <$> categories db) ->
  exists db', (step os_accepts st a).2 !! g = Some db'
              /\ n ∈ c_name <$> categories db'.
Proof.
  assert (Hins : forall c db, n ∈ c_name <$> categories db ->
            n ∈ c_name <$> categories (insert_or_ignore_category c db)).
  { intros c db Hn. unfold insert_or_ignore_category. cbn [categories].
    case_decide; [done|]. rewrite fmap_app. apply elem_of_app. by left. }
  destruct st as [self fs]. intros (db & Hdb & Hn). simpl in Hdb.
  destruct a as [r|sel].
  - simpl. destruct (connect self fs) as [[f dbf]|] eqn:Hc.
    + apply connect_inv in Hc as Hc'. destruct Hc' as [Hf Hdbf].
      destruct (decide (f = g)) as [->|Hne].
      * assert (dbf = db) as -> by congruence.
        destruct r as [d a c dt|j d a c dt|j]; simpl;
          unfold add_expense, update_expense, delete_expense; rewrite Hc;
          try (destruct (fits_int64 j); [|by exists db]);
          cbn [fst]; rewrite lookup_insert_eq; eexists;
          (split; [done|]); cbn [categories insert_expense update_where_id
                                  delete_where_id]; auto.
      * exists db. split; [|done]. rewrite perform_frame; [done|congruence].
    + exists db. split; [|done].
      destruct r; simpl; unfold add_expense, update_expense, delete_expense;
        by rewrite Hc.
  - exists db. split; [|done]. by apply step_keeps_file.
Qed.

(** X9. Categories are never removed. A name that the categories table of
    a dataset holds is still held, and still listed by [get_categories],
    after any sequence of requests and switches, also when every expense
    of that category has been deleted or moved to another category. *)
Theorem categories_are_never_removed (os_accepts : string -> bool) (ob : sorter)
    (self : DatabaseManager) (fs : gmap string database) (f : string)
    (db : database) (n : string) (acts : list action) :
  order_by_contract ob ->
  fs !! f = Some db ->
  n ∈ c_name <$> categories db ->
  exists db' : database,
    (run os_accepts acts (self, fs)).2 !! f = Some db'
    /\ n ∈ c_name <$> categories db'
    /\ (current_db_file (run os_accepts acts (self, fs)).1 = Some f ->
        exists names,
          get_categories ob (run os_accepts acts (self, fs)).1 (run os_accepts acts (self, fs)).2
          = Some names
          /\ n ∈ names).
Proof.
  intros Hob Hdb Hn.
  assert (Hrun : exists db', (run os_accepts acts (self, fs)).2 !! f = Some db'
                             /\ n ∈ c_name <$> categories db').
  { assert (H0 : exists db0, (self, fs).2 !! f = Some db0
                             /\ n ∈ c_name <$> categories db0) by eauto.
    revert H0. generalize (self, fs). clear.
    induction acts as [|a acts IH]; intros st H; [done|].
    exact (IH (step os_accepts st a) (step_keeps_category os_accepts n f st a H)). }
  destruct Hrun as (db' & Hdb' & Hn'). exists db'. split_and!; [done|done|].
  intros Hcur.
  destruct (get_categories_contract ob _ _ f db' Hob Hcur Hdb')
    as (names & Hnames & Hperm & _).
  exists names. split; [done|]. by rewrite Hperm.
Qed.

Lemma categories_are_never_removed_witness :
  exists db' : database,
    (run journal_fits_255 [Request (Delete 1); Request (Delete 2)]
             (example_manager, example_fs)).2
      !! "expenses.db" = Some db'
    /\ "Food" ∈ c_name <$> categories db'
    /\ (current_db_file
          (run journal_fits_255 [Request (Delete 1); Request (Delete 2)]
             (example_manager, example_fs)).1
        = Some "expenses.db" ->
        exists names,
          get_categories stable_engine
            (run journal_fits_255 [Request (Delete 1); Request (Delete 2)]
             (example_manager, example_fs)).1
            (run journal_fits_255 [Request (Delete 1); Request (Delete 2)]
             (example_manager, example_fs)).2
          = Some names
          /\ "Food" ∈ names).
Proof.
  apply (categories_are_never_removed journal_fits_255 stable_engine
           example_manager example_fs
           "expenses.db" example_db "Food" [Request (Delete 1); Request (Delete 2)]).
  - exact stable_engine_contract.
  - reflexivity.
  - vm_compute. apply list_elem_of_here.
Defined.

(** ** A backup that goes through *)

(** X10. When the export can be written and the SMTP session succeeds,
    [email_backup] returns [True] and sends one message from the user's
    address to the recipient, or to the user's own address when the
    recipient is [None] or empty; the attachment is the listing
    [load_expenses] returns, under the name of the temporary file; and
    afterwards no document of that name is on disk (also if one was there
    before the call), while every other JSON document is as it was. *)
Theorem email_backup_sends_listing (ob : sorter) (self : DatabaseManager)
    (fs : gmap string database) (docs : gmap string (list expense))
    (user_email : string) (recipient_email : option string) (timestamp f : string)
    (db : database) :
  current_db_file self = Some f -> fs !! f = Some db ->
  exists (docs' : gmap string (list expense)) (msg : mail) (listing : list expense),
    email_backup ob self fs docs user_email recipient_email timestamp true Sent
    = (docs', Some msg, true)
    /\ load_expenses ob self fs = Some listing
    /\ attachment msg = listing
    /\ attachment_name msg = "expense_backup_" +:+ timestamp +:+ ".json"
    /\ mail_from msg = user_email
    /\ mail_to msg = (if truthy_str recipient_email
                      then default user_email recipient_email else user_email)
    /\ docs' !! ("expense_backup_" +:+ timestamp +:+ ".json") = None
    /\ (forall g, g <> "expense_backup_" +:+ timestamp +:+ ".json" ->
          docs' !! g = docs !! g).
Proof.
  intros Hf Hdb. unfold email_backup.
  rewrite (export_to_json_writes _ _ _ _ _ _ _ Hf Hdb). cbn [fst].
  rewrite lookup_insert_eq.
  eexists _, _, _. split_and!; try reflexivity.
  - unfold load_expenses. by rewrite (connect_Some _ _ _ _ Hf Hdb).
  - cbn [mail_to]. by destruct recipient_email as [[|c r]|].
  - apply lookup_delete_eq.
  - intros g Hg. rewrite lookup_delete_ne by done. by apply lookup_insert_ne.
Qed.

Lemma email_backup_sends_listing_witness :
  exists (docs' : gmap string (list expense)) (msg : mail) (listing : list expense),
    email_backup stable_engine example_manager example_fs ∅ "me@x.com" (Some "")
      "20260101_000000" true Sent
    = (docs', Some msg, true)
    /\ load_expenses stable_engine example_manager example_fs = Some listing
    /\ attachment msg = listing
    /\ attachment_name msg = "expense_backup_" +:+ "20260101_000000" +:+ ".json"
    /\ mail_from msg = "me@x.com"
    /\ mail_to msg = (if truthy_str (Some "")
                      then default "me@x.com" (Some "") else "me@x.com")
    /\ docs' !! ("expense_backup_" +:+ "20260101_000000" +:+ ".json") = None
    /\ (forall g, g <> "expense_backup_" +:+ "20260101_000000" +:+ ".json" ->
          docs' !! g = (∅ : gmap string (list expense)) !! g).
Proof.
  apply (email_backup_sends_listing stable_engine example_manager example_fs ∅
           "me@x.com" (Some "") "20260101_000000" "expenses.db" example_db);
    reflexivity.
Defined.

(** ** The month view *)






(** ** The email check *)

Lemma append_nil_r (s : string) : s +:+ "" = s.
Proof. induction s as [|c s IH]; [done|]. rewrite append_cons. by f_equal. Qed.

Lemma append_assoc (s1 s2 s3 : string) : (s1 +:+ s2) +:+ s3 = s1 +:+ (s2 +:+ s3).
Proof.
  induction s1 as [|c s1 IH]; [done|]. rewrite !append_cons. by f_equal.
Qed.

Lemma no_at_cons (c : ascii) (s : string) :
  no_at (String c s) <-> c <> "@"%char /\ no_at s.
Proof.
  unfold no_at. split.
  - intros H. split.
    + intros ->. by apply (H 0%nat).
    + intros i. apply (H (S i)).
  - intros [Hc Hs] [|i]; simpl; [congruence|apply Hs].
Qed.

Lemma no_at_nil : no_at "".
Proof. by intros [|i]. Qed.

Lemma no_at_app (s1 s2 : string) : no_at (s1 +:+ s2) <-> no_at s1 /\ no_at s2.
Proof.
  induction s1 as [|c s1 IH].
  - rewrite append_nil_l.
    split; [intros H; split; [apply no_at_nil|done]|by intros [_ ?]].
  - rewrite append_cons, !no_at_cons, IH. tauto.
Qed.

(** What [span_not_at] returns: a split of the text whose first part has
    no ['@'] and whose second part is empty or starts with ['@']. *)
Lemma span_not_at_spec (s : string) :
  s = (span_not_at s).1 +:+ (span_not_at s).2
  /\ no_at (span_not_at s).1
  /\ ((span_not_at s).2 = "" \/ exists r, (span_not_at s).2 = String "@" r).
Proof.
  induction s as [|c s (IH1 & IH2 & IH3)]; cbn [span_not_at].
  - split_and!; [done|apply no_at_nil|by left].
  - destruct (Ascii.eqb_spec c "@") as [->|Hc]; cbn [fst snd].
    + split_and!; [done|apply no_at_nil|right; by eexists].
    + split_and!; [by rewrite append_cons, <- IH1|by apply no_at_cons|done].
Qed.

Lemma span_not_at_app (u s : string) :
  no_at u -> span_not_at (u +:+ s) = (u +:+ (span_not_at s).1, (span_not_at s).2).
Proof.
  induction u as [|c u IH]; intros Hu.
  - rewrite !append_nil_l. by destruct (span_not_at s).
  - apply no_at_cons in Hu as [Hc Hu]. rewrite !append_cons. cbn [span_not_at].
    destruct (Ascii.eqb_spec c "@") as [->|_]; [done|].
    by rewrite (IH Hu).
Qed.

Lemma dot_then_more_spec (t : string) :
  dot_then_more t = true <-> exists p q, t = p +:+ "." +:+ q /\ q <> "".
Proof.
  induction t as [|c t IH]; cbn [dot_then_more].
  - split; [done|]. intros ([|? ?] & q & H & _); discriminate.
  - rewrite orb_true_iff, andb_true_iff, negb_true_iff, IH. split.
    + intros [[Hc Ht]|(p & q & -> & Hq)].
      * apply Ascii.eqb_eq in Hc as ->. exists "", t. split; [done|].
        intros ->. by rewrite String.eqb_refl in Ht.
      * exists (String c p), q. by split.
    + intros ([|c' p] & q & H & Hq).
      * rewrite append_nil_l, append_cons, append_nil_l in H. injection H as -> ->.
        left. split; [apply Ascii.eqb_refl|]. by apply String.eqb_neq.
      * rewrite append_cons in H. injection H as -> ->.
        right. by exists p, q.
Qed.

(** X14. The email check accepts a text exactly when some prefix of it
    has the form [u@v.w] with [u], [v], [w] non-empty and free of ['@'].
    It does not look at what follows that prefix: a text that is accepted
    stays accepted whatever is appended to it. *)
Theorem email_check_accepts_prefixes (s : string) :
  (email_re_match s = true <-> exists p rest, s = p +:+ rest /\ in_email_pattern p)
  /\ (email_re_match s = true -> forall t, email_re_match (s +:+ t) = true).
Proof.
  assert (Hiff : forall s, email_re_match s = true
                           <-> exists p rest, s = p +:+ rest /\ in_email_pattern p).
  { clear s. intros s. unfold email_re_match. split.
    - destruct (span_not_at_spec s) as (Hs & Hu & Hr).
      destruct (span_not_at s) as [u r]. cbn [fst snd] in *.
      destruct u as [|cu u]; [done|]. destruct r as [|c0 after_at]; [done|].
      destruct Hr as [|[r' [= -> <-]]]; [done|].
      destruct (span_not_at_spec after_at) as (Ha & Ht & _).
      destruct (span_not_at after_at) as [t r2]. cbn [fst snd] in *.
      destruct t as [|cv t]; [done|].
      intros (p & q & -> & Hq)%dot_then_more_spec.
      apply no_at_cons in Ht as [Hcv Ht]. apply no_at_app in Ht as [Hp Hq'].
      apply no_at_app in Hq' as [_ Hq'].
      exists (String cu u +:+ "@" +:+ String cv p +:+ "." +:+ q), r2. split.
      + rewrite Hs, Ha. rewrite !append_assoc, !append_cons, !append_assoc.
        by rewrite !append_nil_l.
      + exists (String cu u), (String cv p), q.
        split_and!; try done. by apply no_at_cons.
    - intros (p & rest & -> & (u & v & w & -> & Hu & Hv & Hw & Hnu & Hnv & Hnw)).
      rewrite !append_assoc. rewrite (span_not_at_app u) by done.
      rewrite append_cons, append_nil_l. cbn [span_not_at].
      rewrite Ascii.eqb_refl. cbn [fst snd].
      rewrite append_nil_r. destruct u as [|cu u]; [done|].
      rewrite (span_not_at_app v) by done. cbn [fst].
      destruct v as [|cv v]; [done|]. rewrite append_cons.
      apply dot_then_more_spec.
      assert (H : span_not_at (("." +:+ w) +:+ rest)
                  = (("." +:+ w) +:+ (span_not_at rest).1, (span_not_at rest).2)).
      { apply span_not_at_app. apply no_at_app. split; [|done].
        apply no_at_cons. split; [done|apply no_at_nil]. }
      rewrite append_assoc in H. rewrite H. cbn [fst].
      exists v, (w +:+ (span_not_at rest).1). split.
      + by rewrite !append_assoc.
      + destruct w; [done|discriminate]. }
  split; [apply Hiff|].
  intros (p & rest & -> & Hp)%Hiff t. apply Hiff.
  exists p, (rest +:+ t). split; [apply append_assoc|done].
Qed.

Lemma email_check_accepts_prefixes_witness :
  email_re_match ("me@x.com" +:+ "@elsewhere") = true.
Proof.
  apply (proj2 (email_check_accepts_prefixes "me@x.com")). reflexivity.
Defined.

(** ** Export from the menu *)

Lemma substring_whole (t : string) : substring 0 (String.length t) t = t.
Proof. induction t as [|c t IH]; [done|]. simpl. by rewrite IH. Qed.

Lemma substring_after (s t : string) (n : nat) :
  substring (String.length s) n (s +:+ t) = substring 0 n t.
Proof. induction s as [|c s IH]; [done|]. rewrite append_cons. simpl. apply IH. Qed.

Lemma py_endswith_append (s suffix : string) : py_endswith (s +:+ suffix) suffix = true.
Proof.
  unfold py_endswith. rewrite length_append. apply andb_true_intro. split.
  - apply Nat.leb_le. lia.
  - replace (String.length s + String.length suffix - String.length suffix)%nat
      with (String.length s) by lia.
    rewrite substring_after, substring_whole. apply String.eqb_refl.
Qed.

(** X15. An export from the menu always goes to a file whose name ends
    in [.json]: the name entered is used as it is when it already ends so,
    and with [.json] appended otherwise. The document written there is
    the listing of [load_expenses]; no other document changes. When the
    dialog is cancelled or left empty nothing is written. *)
Theorem export_data_names_json (ob : sorter) (self : DatabaseManager)
    (fs : gmap string database) (docs : gmap string (list expense))
    (f : string) (db : database) (answer : option string) :
  current_db_file self = Some f -> fs !! f = Some db ->
  (truthy_str answer = false -> export_data ob self fs docs answer true = (docs, None))
  /\ (truthy_str answer = true ->
      exists (entered final : string) (listing : list expense),
        answer = Some entered
        /\ load_expenses ob self fs = Some listing
        /\ export_data ob self fs docs answer true
           = (<[final := listing]> docs, Some final)
        /\ py_endswith final ".json" = true
        /\ final = (if py_endswith entered ".json" then entered
                    else entered +:+ ".json")).
Proof.
  intros Hf Hdb. split.
  - intros Hfalse. unfold export_data. destruct answer as [s|]; [|done].
    by rewrite Hfalse.
  - intros Htrue. unfold export_data. destruct answer as [s|]; [|done].
    rewrite Htrue.
    rewrite (export_to_json_writes _ _ _ _ _ _ _ Hf Hdb).
    eexists s, _, _. split_and!; try reflexivity.
    + unfold load_expenses. by rewrite (connect_Some _ _ _ _ Hf Hdb).
    + destruct (py_endswith s ".json") eqn:He; [done|]. apply py_endswith_append.
Qed.

Lemma export_data_names_json_witness :
  exists (entered final : string) (listing : list expense),
    Some "march" = Some entered
    /\ load_expenses stable_engine example_manager example_fs = Some listing
    /\ export_data stable_engine example_manager example_fs ∅ (Some "march") true
       = (<[final := listing]> ∅, Some final)
    /\ py_endswith final ".json" = true
    /\ final = (if py_endswith entered ".json" then entered else entered +:+ ".json").
Proof.
  apply (proj2 (export_data_names_json stable_engine example_manager example_fs ∅
                  "expenses.db" example_db (Some "march") eq_refl eq_refl)).
  reflexivity.
Defined.

